(** * open-deep-research: the iterative gather-evaluate engine

    A shallow embedding of [src/adk_deep_research]: the web-search tool
    ([tools.py]), the gather agents ([gather_agent.py]) and the gather step
    of the orchestrator ([main_agent.py]), followed by the properties of the
    engine that the specification states.

    Conventions.
    - A Python [str] is a [string]; its length is [String.length].
    - A Python [int] is a [Z]; list lengths are [nat].
    - [context.state] is a dictionary: it is modelled by the record [State],
      one field per key the agents touch, [None] when the key is absent.
    - An exception is the [Raised] outcome of a computation; what was written
      to [context.state] before the exception stays written.
    - The services the engine calls (search provider, scraper, language
      models) are parameters. *)

From Stdlib Require Import ZArith String Ascii List Lia.
From stdpp Require Import base option list strings pretty.

Import ListNotations.
Local Open Scope string_scope.
Local Open Scope Z_scope.

(* ===================================================================== *)
(** * Python values used by the source *)
(* ===================================================================== *)

Module Py.

(** The result of a call that may raise. *)
Inductive outcome (A : Type) : Type :=
| Ok (a : A)
| Raised (exn : string).
Arguments Ok {A} a.
Arguments Raised {A} exn.

(** Truth value of a [str]: the empty string is falsy. *)
Definition truthy (s : string) : bool :=
  match s with EmptyString => false | String _ _ => true end.

(** [a or b] where [a] is an optional string ([None] is falsy too). *)
Definition or_str (a : option string) (b : string) : string :=
  match a with
  | Some s => if truthy s then s else b
  | None => b
  end.

(** [s[:n]] on a string: the first [n] characters, or all but the last
    [-n] when [n] is negative. *)
Definition str_take (n : Z) (s : string) : string :=
  if 0 <=? n then String.substring 0 (Z.to_nat n) s
  else String.substring 0 (String.length s - Z.to_nat (- n)) s.

(** [l[:n]] on a list, likewise. *)
Definition list_take {A} (n : Z) (l : list A) : list A :=
  if 0 <=? n then take (Z.to_nat n) l
  else take (length l - Z.to_nat (- n)) l.

(** [s.startswith(p)]. *)
Fixpoint startswith (p s : string) : bool :=
  match p, s with
  | EmptyString, _ => true
  | String a p', String b s' => if Ascii.eqb a b then startswith p' s' else false
  | String _ _, EmptyString => false
  end.

(** [s.replace(old, new)] for a non-empty [old]: every occurrence of [old],
    scanning from the left and without overlap, is replaced by [new].
    [skip] is the number of characters of a matched occurrence still to be
    passed over. *)
Fixpoint replace_from (old new : string) (skip : nat) (s : string) : string :=
  match s with
  | EmptyString => EmptyString
  | String c s' =>
      match skip with
      | S k => replace_from old new k s'
      | O =>
          if startswith old s
          then new +:+ replace_from old new (Nat.pred (String.length old)) s'
          else String c (replace_from old new 0 s')
      end
  end.

(** With an empty [old], Python puts [new] before every character and at
    the end. *)
Fixpoint intersperse_str (new s : string) : string :=
  match s with
  | EmptyString => new
  | String c s' => new +:+ String c (intersperse_str new s')
  end.

Definition str_replace (old new s : string) : string :=
  match old with
  | EmptyString => intersperse_str new s
  | String _ _ => replace_from old new 0 s
  end.

(** The line feed of ["\n"]. *)
Definition nl : string := String (Ascii.ascii_of_nat 10) EmptyString.

(** [sep.join(parts)]. *)
Definition join (sep : string) (parts : list string) : string :=
  String.concat sep parts.

(** [list(set(l))]: one copy of every element. Python leaves the order of
    the result unspecified; the properties below only use membership. *)
Definition list_of_set (l : list string) : list string := remove_dups l.

End Py.
Import Py.

(* ===================================================================== *)
(** * config.py *)
(* ===================================================================== *)

Module config.

Record ResearchConfig := {
  cfg_budget : Z;
  maxQueries : Z;
  maxSources : Z;
  maxTokens : Z
}.

Definition RESEARCH_CONFIG : ResearchConfig :=
  {| cfg_budget := 2; maxQueries := 2; maxSources := 5; maxTokens := 8192 |}.

Definition BRAVE_API_KEY : string := "YOUR_BRAVE_API_KEY".
Definition FIRECRAWL_API_KEY : string := "YOUR_FIRECRAWL_API_KEY".

End config.
Import config.

(* ===================================================================== *)
(** * schemas.py *)
(* ===================================================================== *)

Module schemas.

(** [SearchResult]; [summary] is [Optional[str]] with default [None]. *)
Record SearchResult := {
  title : string;
  link : string;
  content : string;
  summary : option string
}.

(** The stream events the gather phase emits. [timestamp] is the wall
    clock at emission and is left out. *)
Inductive StreamEvent :=
| SearchStartedEvent (query : string) (iteration : Z)
| SearchCompletedEvent (query : string) (urls : list string)
    (result_count : nat) (iteration : Z)
| ContentProcessingEvent (url title query : string) (content : option string)
    (iteration : option Z)
| ContentSummarizedEvent (url title query : string)
    (summary_first_hundred_chars : option string) (iteration : option Z)
| EvaluationStartedEvent (total_results : nat) (iteration : Z)
| EvaluationCompletedEvent (needs_more : bool) (reasoning : option string)
    (additional_queries : list string) (iteration : Z)
| IterationCompletedEvent (iteration : Z) (total_results : nat)
| ErrorEvent (message step : string) (iteration : option Z).

End schemas.
Import schemas.

(* ===================================================================== *)
(** * tools.py: the web-search tool *)
(* ===================================================================== *)

Module tools.

(** One entry [r] of [response_json["web"]["results"]]; a key may be
    missing. *)
Record BraveResult := {
  brave_title : option string;
  brave_url : option string
}.

(** What the Brave request does: it raises (transport error or
    [raise_for_status]), or gives a JSON body whose [web.results] list is
    there or not. *)
Inductive BraveReply :=
| BraveRaises (exn : string)
| BraveJson (web_results : option (list BraveResult)).

(** What [firecrawl_app.scrape_url] does: it raises, returns a falsy
    response, or a dictionary with [success], [markdown] and [error]. *)
Inductive ScrapeReply :=
| ScrapeRaises (exn : string)
| ScrapeFalsy
| ScrapeDict (success : bool) (markdown : option string) (error : option string).

(** The two providers. [brave_get query] is the reply to the one search
    request of a run; [scrape_url i url] is the reply to the call that
    task number [i] of the run makes for the page [url] (two tasks that
    ask for the same page may fare differently). *)
Record Providers := {
  brave_get : string -> BraveReply;
  scrape_url : nat -> string -> ScrapeReply
}.

(** An entry of [search_results_raw]. *)
Record Candidate := {
  cand_title : string;
  cand_link : string
}.

Definition candidate_of (r : BraveResult) : Candidate :=
  {| cand_title := default "N/A" (brave_title r);
     cand_link := default "" (brave_url r) |}.

(** The markdown of a page after the two [replace] calls of
    [scrape_task]. *)
Definition clean_markdown (sr : Candidate) (markdown : string) : string :=
  let content :=
    str_replace ("![" +:+ cand_title sr +:+ "](" +:+ cand_link sr +:+ ")") "" markdown in
  str_replace ("[" +:+ cand_title sr +:+ "](" +:+ cand_link sr +:+ ")") (cand_title sr) content.

(** [scrape_task(sr)], given the reply of the one [scrape_url] call it
    awaits. Every failure is caught and gives [None]: in the [else] branch
    a falsy response makes [scrape_response.get] raise, which the
    [except] clause turns into [None] as well. *)
Definition scrape_task (reply : ScrapeReply) (sr : Candidate) : option SearchResult :=
  match reply with
  | ScrapeDict true markdown _ =>
      let content := clean_markdown sr (default "" markdown) in
      Some {| title := cand_title sr; link := cand_link sr;
              content := str_take 80000 content; summary := None |}
  | ScrapeDict false _ _ => None
  | ScrapeFalsy => None
  | ScrapeRaises _ => None
  end.

(** What one run of the tool does: the list it returns and the links
    [scrape_url] was called with, in task order. *)
Record SearchRun := {
  returned : list SearchResult;
  scrape_calls : list string
}.

(** [tasks = [scrape_task(sr) for sr in search_results_raw if sr["link"]]]. *)
Definition scrape_candidates (raw : list Candidate) : list Candidate :=
  List.filter (fun sr => truthy (cand_link sr)) raw.

(** [[r for r in results if r is not None and r.content]];
    [asyncio.gather] gives the results in the order of the tasks. *)
Definition keep_scraped (results : list (option SearchResult)) : list SearchResult :=
  omap (fun r => match r with
                 | Some x => if truthy (content x) then Some x else None
                 | None => None
                 end) results.

Definition _search_on_web_implementation (P : Providers) (query : string)
    (brave_api_key firecrawl_api_key : option string) : outcome SearchRun :=
  let _brave_api_key := or_str brave_api_key BRAVE_API_KEY in
  let _firecrawl_api_key := or_str firecrawl_api_key FIRECRAWL_API_KEY in
  if negb (truthy _brave_api_key) then Raised "Brave API Key is required."
  else
    match brave_get P query with
    | BraveRaises _ => Ok {| returned := []; scrape_calls := [] |}
    | BraveJson web_results =>
        let search_results_raw := List.map candidate_of (default [] web_results) in
        let tasks := scrape_candidates search_results_raw in
        let results := imap (fun i sr => scrape_task (scrape_url P i (cand_link sr)) sr) tasks in
        Ok {| returned := keep_scraped results;
              scrape_calls := List.map cand_link tasks |}
    end.

End tools.
Import tools.

(* ===================================================================== *)
(** * gather_agent.py *)
(* ===================================================================== *)

Module gather_agent.

(** ** [context.state] *)

Record State := {
  research_topic : option string;
  budget : option Z;
  iteration : option Z;
  all_queries : option (list string);
  search_results : option (list SearchResult);
  initial_queries : option (list string);
  current_iteration_queries : option (list string);
  additional_queries : option (list string);
  needs_more_research : option bool;
  max_budget_iterations : option Z;
  current_eval_text : option string;
  user_content : option (list (string * string))
}.

(** [context.state[key] = v], one function per key that is assigned. *)
Definition set_iteration (v : Z) (st : State) : State :=
  {| research_topic := research_topic st; budget := budget st;
     iteration := Some v;
     all_queries := all_queries st; search_results := search_results st;
     initial_queries := initial_queries st;
     current_iteration_queries := current_iteration_queries st;
     additional_queries := additional_queries st;
     needs_more_research := needs_more_research st;
     max_budget_iterations := max_budget_iterations st;
     current_eval_text := current_eval_text st;
     user_content := user_content st |}.

Definition set_all_queries (v : list string) (st : State) : State :=
  {| research_topic := research_topic st; budget := budget st;
     iteration := iteration st;
     all_queries := Some v; search_results := search_results st;
     initial_queries := initial_queries st;
     current_iteration_queries := current_iteration_queries st;
     additional_queries := additional_queries st;
     needs_more_research := needs_more_research st;
     max_budget_iterations := max_budget_iterations st;
     current_eval_text := current_eval_text st;
     user_content := user_content st |}.

Definition set_search_results (v : list SearchResult) (st : State) : State :=
  {| research_topic := research_topic st; budget := budget st;
     iteration := iteration st;
     all_queries := all_queries st; search_results := Some v;
     initial_queries := initial_queries st;
     current_iteration_queries := current_iteration_queries st;
     additional_queries := additional_queries st;
     needs_more_research := needs_more_research st;
     max_budget_iterations := max_budget_iterations st;
     current_eval_text := current_eval_text st;
     user_content := user_content st |}.

Definition set_initial_queries (v : list string) (st : State) : State :=
  {| research_topic := research_topic st; budget := budget st;
     iteration := iteration st;
     all_queries := all_queries st; search_results := search_results st;
     initial_queries := Some v;
     current_iteration_queries := current_iteration_queries st;
     additional_queries := additional_queries st;
     needs_more_research := needs_more_research st;
     max_budget_iterations := max_budget_iterations st;
     current_eval_text := current_eval_text st;
     user_content := user_content st |}.

Definition set_current_iteration_queries (v : list string) (st : State) : State :=
  {| research_topic := research_topic st; budget := budget st;
     iteration := iteration st;
     all_queries := all_queries st; search_results := search_results st;
     initial_queries := initial_queries st;
     current_iteration_queries := Some v;
     additional_queries := additional_queries st;
     needs_more_research := needs_more_research st;
     max_budget_iterations := max_budget_iterations st;
     current_eval_text := current_eval_text st;
     user_content := user_content st |}.

Definition set_additional_queries (v : list string) (st : State) : State :=
  {| research_topic := research_topic st; budget := budget st;
     iteration := iteration st;
     all_queries := all_queries st; search_results := search_results st;
     initial_queries := initial_queries st;
     current_iteration_queries := current_iteration_queries st;
     additional_queries := Some v;
     needs_more_research := needs_more_research st;
     max_budget_iterations := max_budget_iterations st;
     current_eval_text := current_eval_text st;
     user_content := user_content st |}.

Definition set_needs_more_research (v : bool) (st : State) : State :=
  {| research_topic := research_topic st; budget := budget st;
     iteration := iteration st;
     all_queries := all_queries st; search_results := search_results st;
     initial_queries := initial_queries st;
     current_iteration_queries := current_iteration_queries st;
     additional_queries := additional_queries st;
     needs_more_research := Some v;
     max_budget_iterations := max_budget_iterations st;
     current_eval_text := current_eval_text st;
     user_content := user_content st |}.

Definition set_max_budget_iterations (v : Z) (st : State) : State :=
  {| research_topic := research_topic st; budget := budget st;
     iteration := iteration st;
     all_queries := all_queries st; search_results := search_results st;
     initial_queries := initial_queries st;
     current_iteration_queries := current_iteration_queries st;
     additional_queries := additional_queries st;
     needs_more_research := needs_more_research st;
     max_budget_iterations := Some v;
     current_eval_text := current_eval_text st;
     user_content := user_content st |}.

Definition set_current_eval_text (v : string) (st : State) : State :=
  {| research_topic := research_topic st; budget := budget st;
     iteration := iteration st;
     all_queries := all_queries st; search_results := search_results st;
     initial_queries := initial_queries st;
     current_iteration_queries := current_iteration_queries st;
     additional_queries := additional_queries st;
     needs_more_research := needs_more_research st;
     max_budget_iterations := max_budget_iterations st;
     current_eval_text := Some v;
     user_content := user_content st |}.

Definition set_user_content (v : list (string * string)) (st : State) : State :=
  {| research_topic := research_topic st; budget := budget st;
     iteration := iteration st;
     all_queries := all_queries st; search_results := search_results st;
     initial_queries := initial_queries st;
     current_iteration_queries := current_iteration_queries st;
     additional_queries := additional_queries st;
     needs_more_research := needs_more_research st;
     max_budget_iterations := max_budget_iterations st;
     current_eval_text := current_eval_text st;
     user_content := Some v |}.

(** [context.state.get(key, default)] for the keys read with a default. *)
Definition get_iteration (st : State) : Z := default 0 (iteration st).
Definition get_search_results (st : State) : list SearchResult :=
  default [] (search_results st).
Definition get_all_queries (st : State) : list string := default [] (all_queries st).
Definition get_additional_queries (st : State) : list string :=
  default [] (additional_queries st).
Definition get_needs_more_research (st : State) : bool :=
  default false (needs_more_research st).
Definition get_max_budget_iterations (st : State) : Z :=
  default (cfg_budget RESEARCH_CONFIG) (max_budget_iterations st).

(** The round counter and the budget as the loop sees them. *)
Definition loop_vars (st : State) : Z * Z :=
  (get_iteration st, get_max_budget_iterations st).

(** ** What an invoked agent or tool gives back *)

(** The call raises, or returns an event with no usable content
    ([event.content] falsy, no tool output, no [queries] attribute), or
    returns content. *)
Inductive Reply (A : Type) : Type :=
| Raises (exn : string)
| NoContent
| Content (a : A).
Arguments Raises {A} exn.
Arguments NoContent {A}.
Arguments Content {A} a.

Definition raises {A} (r : Reply A) : bool :=
  match r with Raises _ => true | _ => false end.

(** [event.content... if event.content else d]. *)
Definition content_or {A} (d : A) (r : Reply A) : A :=
  match r with Content a => a | _ => d end.

(** The [Event] an agent of this module returns. *)
Inductive Event :=
| SearchStageEvent (results_count_this_iteration : nat)
| EvaluationStageEvent (needs_more : bool) (additional_queries_found : nat)
| GatherCompleteEvent (final_results : list SearchResult)
| AgentErrorEvent (error : string).

(** [event.event_type == "error"]. *)
Definition is_error_event (e : Event) : bool :=
  match e with AgentErrorEvent _ => true | _ => false end.

(** [add_event] of [event_service.py] fills the [iteration] of an event
    that has none with the current iteration. *)
Definition fill_iteration (current_iteration : option Z) (e : StreamEvent)
    : StreamEvent :=
  match current_iteration, e with
  | Some i, ContentProcessingEvent u t q c None =>
      ContentProcessingEvent u t q c (Some i)
  | Some i, ContentSummarizedEvent u t q s None =>
      ContentSummarizedEvent u t q s (Some i)
  | Some i, ErrorEvent m s None => ErrorEvent m s (Some i)
  | _, _ => e
  end.

Section Agents.

(** The outside world: whatever the search tool and the language models
    depend on. A call reads the state of the invocation and the world,
    and may change the world. *)
Context {W : Type}.

Record Capabilities := {
  (** [invoke_tool_async(web_search_tool, {"query": query})] *)
  web_search : string -> State -> W -> Reply (list SearchResult) * W;
  (** [invoke_agent_async(content_summarizer_agent)] *)
  content_summarizer : State -> W -> Reply string * W;
  (** [invoke_agent_async(evaluation_agent)] *)
  evaluation : State -> W -> Reply string * W;
  (** [invoke_agent_async(evaluation_parser_agent)]; the content is the
      [queries] of the parsed [ResearchPlan] *)
  evaluation_parser : State -> W -> Reply (list string) * W
}.

(** What a run works on: the invocation state, the event stream of the
    session (in emission order), the console and the world. *)
Record Store := {
  ctx : State;
  stream : list StreamEvent;
  console : list string;
  world : W
}.

Definition with_ctx (st : State) (s : Store) : Store :=
  {| ctx := st; stream := stream s; console := console s; world := world s |}.

(** ** Computations over a store that may raise *)

Definition M (A : Type) : Type := Store -> outcome A * Store.

Definition ret {A} (a : A) : M A := fun s => (Ok a, s).

Definition bind {A B} (m : M A) (k : A -> M B) : M B :=
  fun s => match m s with
           | (Ok a, s') => k a s'
           | (Raised e, s') => (Raised e, s')
           end.

Definition get_state : M State := fun s => (Ok (ctx s), s).

Definition modify_state (f : State -> State) : M unit :=
  fun s => (Ok tt, with_ctx (f (ctx s)) s).

Definition add_event (e : StreamEvent) (current_iteration : option Z) : M unit :=
  fun s => (Ok tt, {| ctx := ctx s;
                      stream := stream s ++ [fill_iteration current_iteration e];
                      console := console s; world := world s |}).

Definition print (line : string) : M unit :=
  fun s => (Ok tt, {| ctx := ctx s; stream := stream s;
                      console := console s ++ [line]; world := world s |}).

(** Awaiting a capability: [None] stands for an event without usable
    content. *)
Definition invoke {A} (call : State -> W -> Reply A * W) : M (option A) :=
  fun s =>
    let '(r, w) := call (ctx s) (world s) in
    let s' := {| ctx := ctx s; stream := stream s; console := console s; world := w |} in
    match r with
    | Raises e => (Raised e, s')
    | NoContent => (Ok None, s')
    | Content a => (Ok (Some a), s')
    end.

Notation "x <- m ;; k" := (bind m (fun x => k))
  (at level 100, m at next level, right associativity).
Notation "m ;; k" := (bind m (fun _ => k))
  (at level 100, right associativity).

(** [for x in l: ys.append(await f(x))]. *)
Fixpoint for_each {A B} (f : A -> M B) (l : list A) : M (list B) :=
  match l with
  | [] => ret []
  | x :: l' => y <- f x ;; ys <- for_each f l' ;; ret (y :: ys)
  end.

Variable caps : Capabilities.

(** ** [PerformSearchAndSummarizeAgent] *)

(** [context.state["user_content"]] as the summarizer is invoked. *)
Definition summarizer_request (query : string) (search_result : SearchResult)
    (st : State) : State :=
  set_user_content [("research_topic_for_summary", query);
                    ("raw_content_for_summary", content search_result)] st.

(** The body of the inner loop: one search result is summarized. *)
Definition summarize_search_result (current_iteration : Z) (query : string)
    (search_result : SearchResult) : M SearchResult :=
  add_event (ContentProcessingEvent (link search_result)
               (or_str (Some (title search_result)) "") query
               (Some (content search_result)) None) (Some current_iteration) ;;
  modify_state (summarizer_request query search_result) ;;
  summary_event <- invoke (content_summarizer caps) ;;
  let summary_text := default "Summary not available." summary_event in
  let summarized_search_result :=
    {| title := title search_result; link := link search_result;
       content := content search_result; summary := Some summary_text |} in
  add_event (ContentSummarizedEvent (link search_result) (title search_result) query
               (Some (str_take 100 summary_text)) None) (Some current_iteration) ;;
  ret summarized_search_result.

(** The body of the outer loop: one query is searched and its results
    summarized; the value is [summarized_results_for_query]. *)
Definition search_and_summarize_query (current_iteration : Z) (query : string)
    : M (list SearchResult) :=
  add_event (SearchStartedEvent query current_iteration) (Some current_iteration) ;;
  search_tool_event <- invoke (web_search caps query) ;;
  let search_results_for_query := default [] search_tool_event in
  add_event (SearchCompletedEvent query (List.map link search_results_for_query)
               (length search_results_for_query) current_iteration)
    (Some current_iteration) ;;
  for_each (summarize_search_result current_iteration query) search_results_for_query.

Definition PerformSearchAndSummarizeAgent_run_async_impl : M Event :=
  st <- get_state ;;
  let current_iteration := get_iteration st in
  let queries_for_this_iteration := default [] (current_iteration_queries st) in
  per_query <- for_each (search_and_summarize_query current_iteration)
                 queries_for_this_iteration ;;
  let all_new_results_for_iteration := concat per_query in
  modify_state (fun st =>
    set_search_results (get_search_results st ++ all_new_results_for_iteration) st) ;;
  modify_state (fun st =>
    set_all_queries (list_of_set (get_all_queries st ++ queries_for_this_iteration)) st) ;;
  ret (SearchStageEvent (length all_new_results_for_iteration)).

(** ** [EvaluateResearchAgent] *)

(** One item of [formatted_results_for_eval]. *)
Definition format_result_for_eval (sr : SearchResult) : string :=
  "- " +:+ title sr +:+ nl +:+ or_str (summary sr) (str_take 200 (content sr)) +:+ "...".

(** The state as the evaluation agent is invoked: [user_content] holds
    the topic, the queries used and the formatted results. *)
Definition evaluation_request (st : State) : State :=
  let formatted_results_for_eval :=
    join (nl +:+ nl) (List.map format_result_for_eval (get_search_results st)) in
  let formatted_queries_for_eval :=
    join nl (List.map (fun q => "- " +:+ q) (get_all_queries st)) in
  set_user_content
    [("research_topic_for_eval", default "" (research_topic st));
     ("search_queries_used_for_eval", formatted_queries_for_eval);
     ("current_search_results_for_eval", formatted_results_for_eval)] st.

(** The state as the parsing agent is invoked: the evaluation text is
    kept in [current_eval_text] and handed over in [user_content]. *)
Definition parser_request (current_eval_text : string) (st : State) : State :=
  set_user_content [("evaluation_text_to_parse", current_eval_text)]
    (set_current_eval_text current_eval_text st).

Definition EvaluateResearchAgent_run_async_impl : M Event :=
  st <- get_state ;;
  let current_iteration := get_iteration st in
  add_event (EvaluationStartedEvent (length (get_search_results st)) current_iteration)
    (Some current_iteration) ;;
  modify_state evaluation_request ;;
  eval_text_event <- invoke (evaluation caps) ;;
  let current_eval_text := default "" eval_text_event in
  modify_state (parser_request current_eval_text) ;;
  parsed_eval_event <- invoke (evaluation_parser caps) ;;
  let additional_queries := default [] parsed_eval_event in
  let needs_more := Nat.ltb 0 (length additional_queries) in
  modify_state (set_needs_more_research needs_more) ;;
  modify_state (set_additional_queries
                  (list_take (maxQueries RESEARCH_CONFIG) additional_queries)) ;;
  add_event (EvaluationCompletedEvent needs_more
               (Some (str_take 500 current_eval_text))
               (list_take (maxQueries RESEARCH_CONFIG) additional_queries)
               current_iteration) (Some current_iteration) ;;
  ret (EvaluationStageEvent needs_more (length additional_queries)).

(** ** [GatherIterationAgent] *)

(** Modelled from the spec: [SequentialAgent._run_async_impl] of the
    agent framework, which is not part of the sources. Section 4.3: the
    round runs the search stage and then the evaluation stage in strict
    sequence; the event of the last stage is the result. The spec does
    not say what the framework does when a stage raises: in the model the
    exception leaves the sequence, as it leaves an [await] that nobody
    guards, and the second stage is not run. The framework may hand back
    an error event instead, which is what the test of
    [GatherIterationAgent] below is there for. *)
Definition SequentialAgent_run_async_impl (first second : M Event) : M Event :=
  first ;; second.

Definition GatherIterationAgent_run_async_impl : M Event :=
  result_event <- SequentialAgent_run_async_impl
                    PerformSearchAndSummarizeAgent_run_async_impl
                    EvaluateResearchAgent_run_async_impl ;;
  (if negb (is_error_event result_event)
   then st <- get_state ;;
        let current_iteration := get_iteration st in
        add_event (IterationCompletedEvent current_iteration
                     (length (get_search_results st))) (Some current_iteration)
   else ret tt) ;;
  ret result_event.

(** ** [GatherLoopAgent] *)

Definition _prepare_iteration_context (st : State) : State :=
  let current_iter := get_iteration st in
  let st' :=
    if current_iter =? 0
    then set_current_iteration_queries (default [] (initial_queries st)) st
    else set_current_iteration_queries (get_additional_queries st) st in
  set_iteration current_iter st'.

(** The decision of [_loop_condition_fn]; its [print] calls are
    diagnostics and are left out. *)
Definition _loop_condition_fn (st : State) : bool :=
  let current_iter := get_iteration st in
  let max_iterations := get_max_budget_iterations st in
  if max_iterations <=? current_iter then false
  else
    let needs_more := get_needs_more_research st in
    let additional_queries := get_additional_queries st in
    if negb needs_more then false
    else match additional_queries with
         | [] => false
         | _ :: _ => true
         end.

(** What a run of the loop gives: the number of rounds that were
    started, the result, and the store it leaves. *)
Record LoopRun := {
  rounds : nat;
  result : outcome Event;
  final : Store
}.

(** The round that starts in [s]: the iteration agent, run in the context
    that [_prepare_iteration_context] sets up; and the search stage of
    that round alone. *)
Definition run_round (s : Store) : outcome Event * Store :=
  GatherIterationAgent_run_async_impl (with_ctx (_prepare_iteration_context (ctx s)) s).

Definition search_stage_of_round (s : Store) : outcome Event * Store :=
  PerformSearchAndSummarizeAgent_run_async_impl
    (with_ctx (_prepare_iteration_context (ctx s)) s).

(** The loop counts a finished round. *)
Definition count_round (s : Store) : Store :=
  with_ctx (set_iteration (get_iteration (ctx s) + 1) (ctx s)) s.

(** Modelled from the spec: [LoopAgent._run_async_impl] of the agent
    framework, which is not part of the sources. Section 4.4: a round is
    the iteration agent run in the context [_prepare_iteration_context]
    sets up; after each round the round counter [iteration] is
    incremented and [_loop_condition_fn] decides on another round (the
    condition reads what the evaluation of the round has stored, so it is
    looked at after every round, the first included). The sources never
    increment [iteration] themselves: they leave the counter to the loop.
    The spec does not say what the loop does with a round that raises:
    the model ends the run there with the exception, as Python does with
    an exception that nobody catches. [fuel] bounds the number of rounds
    of the model; [None] is a run that needs more. *)
Fixpoint LoopAgent_run_async_impl (fuel : nat) (s : Store) : option LoopRun :=
  match fuel with
  | O => None
  | S fuel' =>
      match run_round s with
      | (Raised e, s') => Some {| rounds := 1; result := Raised e; final := s' |}
      | (Ok ev, s') =>
          let s'' := count_round s' in
          if _loop_condition_fn (ctx s'')
          then match LoopAgent_run_async_impl fuel' s'' with
               | Some r => Some {| rounds := S (rounds r); result := result r;
                                   final := final r |}
               | None => None
               end
          else Some {| rounds := 1; result := Ok ev; final := s'' |}
      end
  end.

(** [GatherLoopAgent._run_async_impl]; the two closing [print] calls are
    diagnostics and are left out. *)
Definition GatherLoopAgent_run_async_impl (fuel : nat) (s : Store) : option LoopRun :=
  let st := ctx s in
  let st := set_max_budget_iterations (default (cfg_budget RESEARCH_CONFIG) (budget st)) st in
  let st := set_iteration (get_iteration st) st in
  let s := with_ctx st s in
  match initial_queries st with
  | None =>
      let '(_, s') :=
        print "Error: 'initial_queries' not found in context state for GatherLoopAgent." s in
      Some {| rounds := 0;
              result := Ok (AgentErrorEvent "Initial queries not provided");
              final := s' |}
  | Some _ =>
      match LoopAgent_run_async_impl fuel s with
      | Some r =>
          Some {| rounds := rounds r;
                  result := match result r with
                            | Ok _ => Ok (GatherCompleteEvent
                                            (get_search_results (ctx (final r))))
                            | Raised e => Raised e
                            end;
                  final := final r |}
      | None => None
      end
  end.

End Agents.

Arguments Capabilities W : clear implicits.
Arguments Store W : clear implicits.
Arguments M W A : clear implicits.
Arguments LoopRun W : clear implicits.

End gather_agent.
Import gather_agent.

(* ===================================================================== *)
(** * main_agent.py: the gather step of the orchestrator *)
(* ===================================================================== *)

Module main_agent.

(** The state [DeepResearchOrchestratorAgent._run_async_impl] sets up
    before planning. *)
Definition initial_state (initial_topic : string) : State :=
  {| research_topic := Some initial_topic;
     budget := Some (cfg_budget RESEARCH_CONFIG);
     iteration := Some 0;
     all_queries := Some [];
     search_results := Some [];
     initial_queries := None;
     current_iteration_queries := None; additional_queries := None;
     needs_more_research := None; max_budget_iterations := None;
     current_eval_text := None; user_content := None |}.

(** Step 1b stores the planned queries, capped. *)
Definition store_initial_queries (queries : list string) (st : State) : State :=
  set_initial_queries (list_take (maxQueries RESEARCH_CONFIG) queries) st.

Section Orchestrator.

Context {W : Type}.
Variable caps : Capabilities W.

(** Step 2: the gather loop is invoked unless there are no initial
    queries; the event it returns is not looked at. Reading
    [context.state["initial_queries"]] raises when the key is absent. *)
Definition gather_step (fuel : nat) (s : Store W) : option (outcome unit * Store W) :=
  match initial_queries (ctx s) with
  | None => Some (Raised "KeyError: 'initial_queries'", s)
  | Some [] => Some (print "No initial queries generated. Skipping gather phase." s)
  | Some (_ :: _) =>
      match GatherLoopAgent_run_async_impl caps fuel s with
      | Some r =>
          Some (match result r with
                | Ok _ => Ok tt
                | Raised e => Raised e
                end, final r)
      | None => None
      end
  end.

(** The [except Exception] clause around the whole orchestration, for an
    exception of the gather step: an [ErrorEvent] is emitted and the run
    ends with an error event (the [print] of the clause is left out).
    [true] is a run that goes on to the cover and the report. *)
Definition gather_step_guarded (fuel : nat) (s : Store W) : option (bool * Store W) :=
  match gather_step fuel s with
  | Some (Ok _, s') => Some (true, s')
  | Some (Raised e, s') =>
      let '(_, s'') := add_event (ErrorEvent e "orchestration_error" None) None s' in
      Some (false, s'')
  | None => None
  end.

End Orchestrator.

End main_agent.
Import main_agent.

(* ===================================================================== *)
(** * Concrete services and sessions *)
(* ===================================================================== *)

Module scenarios.

(** The one page a search for [q] finds. *)
Definition page (q : string) : SearchResult :=
  {| title := "About " +:+ q; link := "https://example.org/" +:+ q;
     content := "All there is to know about " +:+ q; summary := None |}.

(** Services that always answer, with an evaluation that always asks for
    more: the parse step gives three follow-up queries, one of them [X].
    The world counts the calls. *)
Definition insatiable : Capabilities nat :=
  {| web_search := fun q _ w => (Content [page q], S w);
     content_summarizer := fun _ w => (Content "a summary", S w);
     evaluation := fun _ w => (Content "more research is needed", S w);
     evaluation_parser := fun _ w => (Content ["Z"; "X"; "Q"], S w) |}.

(** The evaluation agent returns an event without content; the parse
    step still answers with a query. *)
Definition silent_judge : Capabilities nat :=
  {| web_search := web_search insatiable;
     content_summarizer := content_summarizer insatiable;
     evaluation := fun _ w => (NoContent, S w);
     evaluation_parser := fun _ w => (Content ["Z"], S w) |}.

(** The evaluation agent raises. *)
Definition raising_judge : Capabilities nat :=
  {| web_search := web_search insatiable;
     content_summarizer := content_summarizer insatiable;
     evaluation := fun _ w => (Raises "evaluation model unreachable", S w);
     evaluation_parser := evaluation_parser insatiable |}.

(** The parse step returns an event without usable content. *)
Definition silent_parser : Capabilities nat :=
  {| web_search := web_search insatiable;
     content_summarizer := content_summarizer insatiable;
     evaluation := evaluation insatiable;
     evaluation_parser := fun _ w => (NoContent, S w) |}.


(** The session as the orchestrator hands it to the gather step, with
    the planned queries [queries]. *)
Definition seeded (queries : list string) : Store nat :=
  {| ctx := store_initial_queries queries (initial_state "a topic");
     stream := []; console := []; world := 0%nat |}.

(** A session in its second round or later, about to be evaluated. *)
Definition midway : Store nat :=
  {| ctx := set_all_queries ["X"] (set_search_results [page "X"]
              (set_iteration 1 (ctx (seeded ["X"]))));
     stream := []; console := []; world := 0%nat |}.

(** A search with three candidates; the page of the second cannot be
    fetched. *)
Definition three_candidates : Providers :=
  {| brave_get := fun _ =>
       BraveJson (Some [ {| brave_title := Some "A"; brave_url := Some "https://a.example" |};
                         {| brave_title := Some "B"; brave_url := Some "https://b.example" |};
                         {| brave_title := Some "C"; brave_url := Some "https://c.example" |} ]);
     scrape_url := fun _ url =>
       if String.eqb url "https://b.example" then ScrapeRaises "timeout"
       else ScrapeDict true (Some ("Text of " +:+ url)) None |}.

End scenarios.
Import scenarios.

(* ===================================================================== *)
(** * More Python string operations *)
(* ===================================================================== *)

Module PyText.

(** [c.isspace()] for a character of the model, which is a code point
    below 256: tab, line feed, vertical tab, form feed, carriage return
    (9 to 13), the four separators 28 to 31, space (32), next line
    (U+0085) and no-break space (U+00A0). These are the characters
    [str.strip()] removes. *)
Definition is_space (c : ascii) : bool :=
  let n := nat_of_ascii c in
  (Nat.leb 9 n && Nat.leb n 13) || (Nat.leb 28 n && Nat.leb n 32)
  || Nat.eqb n 133 || Nat.eqb n 160.

(** [s.lstrip()], [s.rstrip()] and [s.strip()]. *)
Fixpoint lstrip (s : string) : string :=
  match s with
  | EmptyString => EmptyString
  | String c s' => if is_space c then lstrip s' else s
  end.

Fixpoint rstrip (s : string) : string :=
  match s with
  | EmptyString => EmptyString
  | String c s' =>
      match rstrip s' with
      | EmptyString => if is_space c then EmptyString else String c EmptyString
      | String c' r => String c (String c' r)
      end
  end.

Definition strip (s : string) : string := rstrip (lstrip s).

(** [needle in hay] for strings. *)
Fixpoint contains (needle hay : string) : bool :=
  startswith needle hay ||
  match hay with
  | EmptyString => false
  | String _ hay' => contains needle hay'
  end.

(** The characters of a string. *)
Fixpoint chars (s : string) : list ascii :=
  match s with
  | EmptyString => []
  | String c s' => c :: chars s'
  end.

(** Truth value of a list: the empty list is falsy. *)
Definition truthy_list {A} (l : list A) : bool :=
  match l with [] => false | _ :: _ => true end.

(** A text of white space only; the empty text is one. *)
Definition blank (s : string) : Prop :=
  Forall (fun c => is_space c = true) (chars s).

(** The first and the last character of a text, if it has any. *)
Definition first_char (s : string) : option ascii :=
  match s with
  | EmptyString => None
  | String c _ => Some c
  end.

Fixpoint last_char (s : string) : option ascii :=
  match s with
  | EmptyString => None
  | String c s' =>
      match s' with
      | EmptyString => Some c
      | String _ _ => last_char s'
      end
  end.

(** A text that neither starts nor ends with white space. *)
Definition trimmed (t : string) : Prop :=
  (forall c, first_char t = Some c -> is_space c = false) /\
  (forall c, last_char t = Some c -> is_space c = false).

(** [t] is [s] without the white space around it. *)
Definition stripped (s t : string) : Prop :=
  (exists before after, s = before +:+ t +:+ after /\ blank before /\ blank after) /\
  trimmed t.

End PyText.
Import PyText.

(* ===================================================================== *)
(** * schemas.py: what a subscriber reads off an event *)
(* ===================================================================== *)

Module observations.

(** The [type] tag of an event. *)
Definition event_type (e : StreamEvent) : string :=
  match e with
  | SearchStartedEvent _ _ => "search_started"
  | SearchCompletedEvent _ _ _ _ => "search_completed"
  | ContentProcessingEvent _ _ _ _ _ => "content_processing"
  | ContentSummarizedEvent _ _ _ _ _ => "content_summarized"
  | EvaluationStartedEvent _ _ => "evaluation_started"
  | EvaluationCompletedEvent _ _ _ _ => "evaluation_completed"
  | IterationCompletedEvent _ _ => "iteration_completed"
  | ErrorEvent _ _ _ => "error"
  end.

(** The [iteration] field of an event. *)
Definition event_iteration (e : StreamEvent) : option Z :=
  match e with
  | SearchStartedEvent _ i => Some i
  | SearchCompletedEvent _ _ _ i => Some i
  | ContentProcessingEvent _ _ _ _ i => i
  | ContentSummarizedEvent _ _ _ _ i => i
  | EvaluationStartedEvent _ i => Some i
  | EvaluationCompletedEvent _ _ _ i => Some i
  | IterationCompletedEvent i _ => Some i
  | ErrorEvent _ _ i => i
  end.

(** The queries of the [search_started] events of a stream, in order, and
    the queries of its [search_completed] events. *)
Definition search_started_query (e : StreamEvent) : option string :=
  match e with SearchStartedEvent q _ => Some q | _ => None end.

Definition search_completed_query (e : StreamEvent) : option string :=
  match e with SearchCompletedEvent q _ _ _ => Some q | _ => None end.

(** The events a stage of a round may emit. *)
Definition search_stage_types : list string :=
  ["search_started"; "search_completed"; "content_processing"; "content_summarized"].

Definition evaluation_stage_types : list string :=
  ["evaluation_started"; "evaluation_completed"].

(** What the payload of an event is cut to: the count of a
    [search_completed] event is the number of its urls, a summary excerpt
    has at most 100 characters, a reasoning excerpt at most 500, and an
    evaluation reports at most [maxQueries] follow-up queries. *)
Definition payload_in_bounds (e : StreamEvent) : Prop :=
  match e with
  | SearchCompletedEvent _ urls n _ => n = length urls
  | ContentSummarizedEvent _ _ _ x _ => (String.length (default "" x) <= 100)%nat
  | EvaluationCompletedEvent _ r qs _ =>
      (String.length (default "" r) <= 500)%nat /\
      Z.of_nat (length qs) <= maxQueries RESEARCH_CONFIG
  | _ => True
  end.

(** The query lists a round reads hold at most [maxQueries] queries. *)
Definition queries_capped (st : State) : Prop :=
  Z.of_nat (length (default [] (initial_queries st))) <= maxQueries RESEARCH_CONFIG /\
  Z.of_nat (length (get_additional_queries st)) <= maxQueries RESEARCH_CONFIG.

End observations.
Import observations.

(* ===================================================================== *)
(** * event_service.py *)
(* ===================================================================== *)

Module event_service.

(** [AdkEventService._generate_key]. *)
Definition _generate_key (session_id : string) : string :=
  "research:" +:+ session_id +:+ ":stream".

(** An event as [add_event] receives it: the event, and its [timestamp]
    ([None] when the attribute is missing or holds [None]). *)
Record EventData := {
  event : StreamEvent;
  timestamp : option Z
}.

(** The first half of [add_event]: the timestamp is set to the clock when
    it is missing or zero, and the iteration is filled in when the event
    has none; [now] is [int(time.time() * 1000)]. *)
Definition stamp (now : Z) (current_iteration : option Z) (event_data : EventData)
    : EventData :=
  {| event := fill_iteration current_iteration (event event_data);
     timestamp :=
       match timestamp event_data with
       | None => Some now
       | Some t => if t =? 0 then Some now else Some t
       end |}.

(** The commands sent to Redis; the value of an [XADD] is the JSON dump of
    the event, which is kept as the event. *)
Inductive RedisCommand :=
| XADD (key : string) (payload : EventData)
| EXPIRE (key : string) (seconds : Z).

(** What [add_event] does: the event as it leaves it, the commands it
    sent, in order, and the line it printed. [redis] tells of a command
    whether the client raises on it, and with what. *)
Record Emission := {
  emitted : EventData;
  sent : list RedisCommand;
  printed : string
}.

Definition add_event (session_id : string) (redis : RedisCommand -> option string)
    (now : Z) (event_data : EventData) (current_iteration : option Z) : Emission :=
  let event_data := stamp now current_iteration event_data in
  let key := _generate_key session_id in
  let failed e := "Error adding event to Redis stream " +:+ key +:+ ": " +:+ e in
  match redis (XADD key event_data) with
  | Some e => {| emitted := event_data; sent := [XADD key event_data]; printed := failed e |}
  | None =>
      match redis (EXPIRE key 86400) with
      | Some e =>
          {| emitted := event_data;
             sent := [XADD key event_data; EXPIRE key 86400];
             printed := failed e |}
      | None =>
          {| emitted := event_data;
             sent := [XADD key event_data; EXPIRE key 86400];
             printed := "Event '" +:+ event_type (event event_data)
                        +:+ "' added to stream " +:+ key |}
      end
  end.

End event_service.

(* ===================================================================== *)
(** * llm_agents.py: the LiteLLM adapter *)
(* ===================================================================== *)

Module llm_agents.

(** [TOGETHER_API_KEY] of [config.py]. *)
Definition TOGETHER_API_KEY : string := "YOUR_TOGETHER_API_KEY".

(** The model name handed to LiteLLM. *)
Definition litellm_model_name (model_identifier : string) : string :=
  if negb (contains "/" model_identifier)
     || negb (startswith "together_ai/" model_identifier)
  then "together_ai/" +:+ model_identifier
  else model_identifier.

Section Adapter.

(** The messages of a request and its temperature are passed on as they
    are; [default_temperature] is the literal [0.7]. *)
Variables Message Float : Type.
Variable default_temperature : Float.

Record Request := {
  messages : option (list Message);
  max_tokens : option Z;
  temperature : option Float
}.

(** One call of [litellm.acompletion]. *)
Record Completion := {
  model : string;
  completion_messages : list Message;
  completion_max_tokens : Z;
  completion_temperature : Float;
  api_key : option string
}.

(** What the call does: it raises, or gives a response whose first choice
    has a message content or not. *)
Inductive LiteLLMReply :=
| LiteLLMRaises (exn : string)
| LiteLLMResponse (content : option string).

(** What [generate_content] does: the [text] of the dictionary it
    returns, and the calls it made. Its [print] calls are left out. *)
Record Generation := {
  text : string;
  calls : list Completion
}.

Definition generate_content (model_identifier : string) (self_api_key : option string)
    (acompletion : Completion -> LiteLLMReply) (request : Request) : Generation :=
  match messages request with
  | None | Some [] =>
      {| text := "Error: No messages provided in the request."; calls := [] |}
  | Some (m :: ms) =>
      let max_tokens := default (maxTokens RESEARCH_CONFIG) (max_tokens request) in
      let temperature := default default_temperature (temperature request) in
      let litellm_model_name := litellm_model_name model_identifier in
      let litellm_api_key := or_str self_api_key TOGETHER_API_KEY in
      if contains "YOUR_TOGETHER_API_KEY" litellm_api_key
      then {| text := "Error: API key not configured for " +:+ litellm_model_name;
              calls := [] |}
      else
        let call :=
          {| model := litellm_model_name;
             completion_messages := m :: ms;
             completion_max_tokens := max_tokens;
             completion_temperature := temperature;
             api_key := if contains "together_ai/" litellm_model_name
                        then Some litellm_api_key else None |} in
        match acompletion call with
        | LiteLLMRaises e =>
            {| text := "Error during LiteLLM API call: " +:+ e; calls := [call] |}
        | LiteLLMResponse (Some content) =>
            if truthy content
            then {| text := strip content; calls := [call] |}
            else {| text := "Error: Could not parse LLM response from LiteLLM.";
                    calls := [call] |}
        | LiteLLMResponse None =>
            {| text := "Error: Could not parse LLM response from LiteLLM.";
               calls := [call] |}
        end
  end.

End Adapter.

Arguments messages {Message Float} _.
Arguments max_tokens {Message Float} _.
Arguments temperature {Message Float} _.
Arguments model {Message Float} _.
Arguments completion_messages {Message Float} _.
Arguments completion_max_tokens {Message Float} _.
Arguments completion_temperature {Message Float} _.
Arguments api_key {Message Float} _.
Arguments text {Message Float} _.
Arguments calls {Message Float} _.
Arguments generate_content {Message Float} _ _ _ _ _.

End llm_agents.

(* ===================================================================== *)
(** * initiator_agent.py *)
(* ===================================================================== *)

Module initiator_agent.

(** The research record the initiator reads; a key may be missing. *)
Record ResearchData := {
  clerkUserId : option string;
  initialUserMessage : option string;
  questions : option (list string);
  answers : option (list string)
}.

(** The part of the topic for question number [i] (from 0) and its
    answer. *)
Definition question_part (i : nat) (question_text answer : string) : string :=
  pretty (S i) +:+ ". " +:+ question_text +:+ " " +:+ answer.

(** The parts appended to [topic_parts]: one for each question that has a
    non-empty answer at its position. *)
Definition answered_parts (questions answers : list string) : list string :=
  if truthy_list answers && truthy_list questions && Nat.ltb 0 (length answers)
  then omap id
         (imap (fun i question_text =>
                  match answers !! i with
                  | Some answer =>
                      if truthy answer then Some (question_part i question_text answer)
                      else None
                  | None => None
                  end) questions)
  else [].

(** Step 3: the full research topic. *)
Definition construct_research_topic (research_data : ResearchData) : string :=
  let initial_user_message := default "" (initialUserMessage research_data) in
  let questions := default [] (questions research_data) in
  let answers := default [] (answers research_data) in
  let topic_parts := initial_user_message :: answered_parts questions answers in
  strip (join " " (List.filter truthy topic_parts)).

(** What the initiator decides before it hands over to the orchestrator:
    an error event, or the session id and topic the orchestrator is
    created with. *)
Inductive Initiation :=
| InitiationError (error : string)
| Orchestrate (session_id research_topic : string).

Section Initiator.

(** The two database functions the initiator awaits. *)
Variable db_get_research_data_for_init : string -> option ResearchData.
Variable db_limit_research_check : string -> bool -> bool.

(** [ResearchInitiatorAgent._run_async_impl] up to the creation of the
    orchestrator. [state_chat_id] and [user_chat_id] are the [chatId] of
    the state and of the user content, and likewise for the key. *)
Definition ResearchInitiatorAgent_prepare
    (state_chat_id user_chat_id state_key user_key : option string) : Initiation :=
  let chat_id := or_str state_chat_id (default "" user_chat_id) in
  let personal_together_api_key := or_str state_key (default "" user_key) in
  if negb (truthy chat_id)
  then InitiationError "chatId is required for ResearchInitiatorAgent"
  else
    let not_found :=
      InitiationError ("Research data or clerkUserId not found for chatId "
                       +:+ chat_id +:+ " (DB stub).") in
    match db_get_research_data_for_init chat_id with
    | None => not_found
    | Some research_data =>
        match clerkUserId research_data with
        | None => not_found
        | Some clerk_user_id =>
            if negb (truthy clerk_user_id) then not_found
            else if negb (db_limit_research_check clerk_user_id
                            (truthy personal_together_api_key))
            then InitiationError ("Research limit check failed for user "
                                  +:+ clerk_user_id +:+ " (DB stub).")
            else
              let research_topic := construct_research_topic research_data in
              if negb (truthy research_topic)
              then InitiationError ("Constructed research topic is empty for chatId "
                                    +:+ chat_id +:+ ".")
              else Orchestrate chat_id research_topic
        end
    end.

End Initiator.

(** The two database stubs of the module. *)
Definition db_get_research_data_for_init (chat_id : string) : option ResearchData :=
  Some {| clerkUserId := Some ("stub_user_" +:+ chat_id);
          initialUserMessage := Some ("Initial topic for " +:+ chat_id +:+ " from Python stub");
          questions := Some ["Is this a stub question?"];
          answers := Some ["Yes, it is."] |}.

Definition db_limit_research_check (clerk_user_id : string) (is_bringing_key : bool) : bool :=
  true.

End initiator_agent.

(* ===================================================================== *)
(** * main_agent.py: the title of the report *)
(* ===================================================================== *)

Module report.

(** The line feed as a character. *)
Definition newline : ascii := Ascii.ascii_of_nat 10.

(** [s.split(sep)] for a separator of one character: the pieces between
    the separators, of which there is always at least one. *)
Fixpoint split (sep : ascii) (s : string) : list string :=
  match s with
  | EmptyString => [EmptyString]
  | String c s' =>
      if Ascii.eqb c sep then EmptyString :: split sep s'
      else match split sep s' with
           | piece :: pieces => String c piece :: pieces
           | [] => [String c EmptyString]
           end
  end.

(** [s[n:]]. *)
Fixpoint str_from (n : nat) (s : string) : string :=
  match n, s with
  | O, _ => s
  | S _, EmptyString => EmptyString
  | S n', String _ s' => str_from n' s'
  end.

(** Step 5 of the orchestrator: the title is taken from the first line of
    the report that starts with ["# "]; without one it is the topic. *)
Definition report_title (initial_topic final_report_text : string) : string :=
  match List.find (startswith "# ") (split newline final_report_text) with
  | Some line => strip (str_from 2 line)
  | None => initial_topic
  end.

End report.

(* ===================================================================== *)
(** * tools.py: the web-search tool and the clients it builds *)
(* ===================================================================== *)

Module web_search_clients.

(** The client objects [_search_on_web_implementation] uses outside its
    [try] blocks. [async with httpx.AsyncClient() as client] (line 94)
    wraps the Brave request: building or entering the client may raise,
    and so may leaving it, which happens after the request whatever
    became of it, also on the [return []] of the [except] clause.
    [FirecrawlApp(apiKey=...)] (line 121) is built once the Brave results
    are read. [Some e] is a step that raises [e]. *)
Record Clients := {
  client_enter : option string;
  client_exit : option string;
  firecrawl_app : option string
}.

(** [_search_on_web_implementation] with these steps written out; the
    rest is the tool as above. *)
Definition _search_on_web_implementation (C : Clients) (P : Providers) (query : string)
    (brave_api_key firecrawl_api_key : option string) : outcome SearchRun :=
  let _brave_api_key := or_str brave_api_key BRAVE_API_KEY in
  let _firecrawl_api_key := or_str firecrawl_api_key FIRECRAWL_API_KEY in
  if negb (truthy _brave_api_key) then Raised "Brave API Key is required."
  else
    match client_enter C with
    | Some e => Raised e
    | None =>
        match brave_get P query, client_exit C with
        | _, Some e => Raised e
        | BraveRaises _, None => Ok {| returned := []; scrape_calls := [] |}
        | BraveJson web_results, None =>
            let search_results_raw := List.map candidate_of (default [] web_results) in
            match firecrawl_app C with
            | Some e => Raised e
            | None =>
                let tasks := scrape_candidates search_results_raw in
                let results :=
                  imap (fun i sr => scrape_task (scrape_url P i (cand_link sr)) sr) tasks in
                Ok {| returned := keep_scraped results;
                      scrape_calls := List.map cand_link tasks |}
            end
        end
    end.

End web_search_clients.

(* ===================================================================== *)
(** * Frame conditions *)
(* ===================================================================== *)

Module frames.

Section Frames.

Context {W : Type}.

(** [keeps f]: the part [f] of the invocation state is the same in both
    stores. *)
Definition keeps {X} (f : State -> X) : relation (Store W) :=
  fun s s' => f (ctx s) = f (ctx s').

(** [respects R m]: whatever [m] does, and whether it raises or not, the
    store it leaves is related by [R] to the store it started from. *)
Definition respects {A} (R : relation (Store W)) (m : M W A) : Prop :=
  forall s, R s (snd (m s)).

End Frames.

End frames.
Import frames.

(* ===================================================================== *)
(** * What a computation appends to the stream *)
(* ===================================================================== *)

Module traces.

Section Traces.

Context {W : Type}.

(** [emits P]: the stream of the second store is the stream of the first
    followed by events that all satisfy [P]. *)
Definition emits (P : StreamEvent -> Prop) : relation (Store W) :=
  fun s s' => exists new, stream s' = (stream s ++ new)%list /\ Forall P new.

(** [adds f m l]: [m] only appends events to the stream; when it
    completes, the ones [f] selects are, in order, [l], and when it raises
    they are the first of [l]. *)
Definition adds {A T} (f : StreamEvent -> option T) (m : M W A) (l : list T) : Prop :=
  forall s,
    exists new,
      stream (snd (m s)) = (stream s ++ new)%list /\
      match fst (m s) with
      | Ok _ => omap f new = l
      | Raised _ => omap f new `prefix_of` l
      end.

(** An event of the round with index [c] that a stage with the event
    types [types] may emit. *)
Definition of_round (c : Z) (types : list string) (e : StreamEvent) : Prop :=
  event_iteration e = Some c /\ event_type e ∈ types.

End Traces.

End traces.
Import traces.

(* ===================================================================== *)
(** * Reasoning about computations over a store *)
(* ===================================================================== *)

Section Frames.

Context {W : Type}.
Implicit Types (s : Store W) (st : State).

#[global] Instance keeps_refl {X} (f : State -> X) : Reflexive (@keeps W X f).
Proof. intros s. reflexivity. Qed.

#[global] Instance keeps_trans {X} (f : State -> X) : Transitive (@keeps W X f).
Proof. intros s1 s2 s3 H12 H23. unfold keeps in *. congruence. Qed.

Lemma respects_ret {A} (R : relation (Store W)) `{!Reflexive R} (a : A) :
  respects R (ret a).
Proof. intros s. simpl. reflexivity. Qed.

Lemma respects_bind {A B} (R : relation (Store W)) `{!Transitive R}
    (m : M W A) (k : A -> M W B) :
  respects R m -> (forall a, respects R (k a)) -> respects R (bind m k).
Proof.
  intros Hm Hk s. unfold bind.
  specialize (Hm s). destruct (m s) as [[a | e] s']; simpl in *.
  - transitivity s'; [assumption | apply Hk].
  - assumption.
Qed.

Lemma respects_for_each {A B} (R : relation (Store W))
    `{!Reflexive R} `{!Transitive R} (f : A -> M W B) (l : list A) :
  (forall x, respects R (f x)) -> respects R (for_each f l).
Proof.
  intros Hf. induction l as [| x l IH]; simpl.
  - apply respects_ret; assumption.
  - apply respects_bind; [assumption | apply Hf |]. intros y.
    apply respects_bind; [assumption | apply IH |]. intros ys.
    apply respects_ret; assumption.
Qed.

Lemma respects_get_state (R : relation (Store W)) `{!Reflexive R} :
  respects R get_state.
Proof. intros s. simpl. reflexivity. Qed.

Lemma respects_modify_state {X} (f : State -> X) (g : State -> State) :
  (forall st, f (g st) = f st) -> respects (keeps f) (modify_state (W:=W) g).
Proof. intros Hg s. unfold keeps. simpl. symmetry. apply Hg. Qed.

Lemma respects_add_event {X} (f : State -> X) e i :
  respects (keeps f) (add_event (W:=W) e i).
Proof. intros s. reflexivity. Qed.

Lemma respects_print {X} (f : State -> X) line :
  respects (keeps f) (print (W:=W) line).
Proof. intros s. reflexivity. Qed.

Lemma respects_invoke {X A} (f : State -> X) (call : State -> W -> Reply A * W) :
  respects (keeps f) (invoke call).
Proof.
  intros s. unfold keeps, invoke.
  destruct (call (ctx s) (world s)) as [[e | | a] w]; reflexivity.
Qed.

End Frames.

(** [frame]: the goal [respects (keeps f) m] for an [m] built from the
    operations above, when no assignment of [m] writes to [f]. *)
Ltac frame_step :=
  lazymatch goal with
  | |- respects _ (bind _ _) =>
      apply respects_bind; try typeclasses eauto; [| intros ?]
  | |- respects _ (for_each _ _) =>
      apply respects_for_each; try typeclasses eauto; intros ?
  | |- respects _ (modify_state _) =>
      first [ apply respects_modify_state; intros ?; reflexivity | fail 1 ]
  | |- respects _ (ret _) => apply respects_ret; typeclasses eauto
  | |- respects _ get_state => apply respects_get_state; typeclasses eauto
  | |- respects _ (add_event _ _) => apply respects_add_event
  | |- respects _ (print _) => apply respects_print
  | |- respects _ (invoke _) => apply respects_invoke
  | |- respects _ (if ?b then _ else _) => destruct b
  | |- respects _ (let _ := _ in _) => cbv zeta
  end.

Ltac frame := repeat frame_step.

(* ===================================================================== *)
(** * The stages, step by step *)
(* ===================================================================== *)

Section Stages.

Context {W : Type}.
Variable caps : Capabilities W.
Implicit Types (s : Store W) (st : State).

(** ** What the search stage leaves alone *)

Lemma summarize_search_result_keeps {X} (f : State -> X) cur q sr :
  (forall v st, f (set_user_content v st) = f st) ->
  respects (keeps f) (summarize_search_result caps cur q sr).
Proof.
  intros Hf. unfold summarize_search_result. frame.
  apply respects_modify_state. intros st. apply Hf.
Qed.

Lemma search_and_summarize_query_keeps {X} (f : State -> X) cur q :
  (forall v st, f (set_user_content v st) = f st) ->
  respects (keeps f) (search_and_summarize_query caps cur q).
Proof.
  intros Hf. unfold search_and_summarize_query. frame.
  apply summarize_search_result_keeps, Hf.
Qed.

Lemma search_loop_keeps {X} (f : State -> X) cur qs :
  (forall v st, f (set_user_content v st) = f st) ->
  respects (keeps f) (for_each (search_and_summarize_query caps cur) qs).
Proof.
  intros Hf. frame. apply search_and_summarize_query_keeps, Hf.
Qed.

(** The search stage, in terms of its loop over the queries. *)
Lemma PerformSearchAndSummarizeAgent_unfold s :
  PerformSearchAndSummarizeAgent_run_async_impl caps s =
  let qs := default [] (current_iteration_queries (ctx s)) in
  match for_each (search_and_summarize_query caps (get_iteration (ctx s))) qs s with
  | (Ok per_query, s1) =>
      (Ok (SearchStageEvent (length (concat per_query))),
       with_ctx (set_all_queries (list_of_set (get_all_queries (ctx s1) ++ qs))
                   (set_search_results (get_search_results (ctx s1) ++ concat per_query)
                      (ctx s1))) s1)
  | (Raised e, s1) => (Raised e, s1)
  end.
Proof.
  unfold PerformSearchAndSummarizeAgent_run_async_impl, bind, get_state. simpl.
  destruct (for_each _ _ s) as [[per_query | e] s1]; reflexivity.
Qed.

(** The evidence after the search stage: what was there, followed by the
    records of this round; untouched when the stage raises. *)
Lemma PerformSearchAndSummarizeAgent_evidence s :
  match PerformSearchAndSummarizeAgent_run_async_impl caps s with
  | (Ok ev, s') =>
      exists new,
        ev = SearchStageEvent (length new) /\
        search_results (ctx s') = Some (get_search_results (ctx s) ++ new)%list
  | (Raised _, s') => search_results (ctx s') = search_results (ctx s)
  end.
Proof.
  rewrite PerformSearchAndSummarizeAgent_unfold. cbv zeta.
  pose proof (search_loop_keeps search_results (get_iteration (ctx s))
                (default [] (current_iteration_queries (ctx s)))
                (fun _ _ => eq_refl) s) as Hk.
  unfold keeps in Hk.
  destruct (for_each _ _ s) as [[per_query | e] s1]; simpl in *.
  - exists (concat per_query). split; [reflexivity |].
    unfold get_search_results. rewrite Hk. reflexivity.
  - symmetry. exact Hk.
Qed.

(** ** The evaluation stage *)

(** The evaluation stage, in terms of the two replies it gets. *)
Lemma EvaluateResearchAgent_unfold s :
  EvaluateResearchAgent_run_async_impl caps s =
  let cur := get_iteration (ctx s) in
  let started := EvaluationStartedEvent (length (get_search_results (ctx s))) cur in
  let st1 := evaluation_request (ctx s) in
  let '(r1, w1) := evaluation caps st1 (world s) in
  match r1 with
  | Raises e =>
      (Raised e, {| ctx := st1; stream := stream s ++ [started];
                    console := console s; world := w1 |})
  | _ =>
      let text := content_or "" r1 in
      let st2 := parser_request text st1 in
      let '(r2, w2) := evaluation_parser caps st2 w1 in
      match r2 with
      | Raises e =>
          (Raised e, {| ctx := st2; stream := stream s ++ [started];
                        console := console s; world := w2 |})
      | _ =>
          let qs := content_or [] r2 in
          let needs_more := Nat.ltb 0 (length qs) in
          let kept := list_take (maxQueries RESEARCH_CONFIG) qs in
          (Ok (EvaluationStageEvent needs_more (length qs)),
           {| ctx := set_additional_queries kept (set_needs_more_research needs_more st2);
              stream := (stream s ++ [started]) ++
                        [EvaluationCompletedEvent needs_more (Some (str_take 500 text))
                           kept cur];
              console := console s; world := w2 |})
      end
  end.
Proof.
  unfold EvaluateResearchAgent_run_async_impl, bind, get_state, add_event,
    modify_state, invoke, with_ctx, ret. simpl.
  destruct (evaluation caps _ _) as [[e1 | | t] w1]; simpl; try reflexivity;
    destruct (evaluation_parser caps _ _) as [[e2 | | l] w2]; reflexivity.
Qed.

Lemma EvaluateResearchAgent_keeps {X} (f : State -> X) :
  (forall v st, f (set_user_content v st) = f st) ->
  (forall v st, f (set_current_eval_text v st) = f st) ->
  (forall v st, f (set_needs_more_research v st) = f st) ->
  (forall v st, f (set_additional_queries v st) = f st) ->
  respects (keeps f) (EvaluateResearchAgent_run_async_impl caps).
Proof.
  intros Hu Ht Hn Ha s. unfold keeps.
  rewrite EvaluateResearchAgent_unfold. cbv zeta.
  assert (H1 : f (evaluation_request (ctx s)) = f (ctx s))
    by (unfold evaluation_request; apply Hu).
  assert (H2 : forall t, f (parser_request t (evaluation_request (ctx s))) = f (ctx s))
    by (intros t; unfold parser_request; rewrite Hu, Ht; exact H1).
  destruct (evaluation caps _ _) as [[e1 | | t] w1]; simpl; try (symmetry; exact H1);
    destruct (evaluation_parser caps _ _) as [[e2 | | l] w2]; simpl;
    rewrite ?Ha, ?Hn, ?H2; reflexivity.
Qed.

End Stages.

(* ===================================================================== *)
(** * Rounds and the loop *)
(* ===================================================================== *)

Section Rounds.

Context {W : Type}.
Variable caps : Capabilities W.
Implicit Types (s : Store W) (st : State).

Lemma PerformSearchAndSummarizeAgent_keeps {X} (f : State -> X) :
  (forall v st, f (set_user_content v st) = f st) ->
  (forall v st, f (set_search_results v st) = f st) ->
  (forall v st, f (set_all_queries v st) = f st) ->
  respects (keeps f) (PerformSearchAndSummarizeAgent_run_async_impl caps).
Proof.
  intros Hu Hs Hq. unfold PerformSearchAndSummarizeAgent_run_async_impl. frame.
  - apply search_and_summarize_query_keeps, Hu.
  - apply respects_modify_state. intros st. apply Hs.
  - apply respects_modify_state. intros st. apply Hq.
Qed.

(** A part of the state that no stage assigns is the same after a round
    of the two stages, whether the round raises or not. *)
Lemma GatherIterationAgent_keeps {X} (f : State -> X) :
  (forall v st, f (set_user_content v st) = f st) ->
  (forall v st, f (set_search_results v st) = f st) ->
  (forall v st, f (set_all_queries v st) = f st) ->
  (forall v st, f (set_current_eval_text v st) = f st) ->
  (forall v st, f (set_needs_more_research v st) = f st) ->
  (forall v st, f (set_additional_queries v st) = f st) ->
  respects (keeps f) (GatherIterationAgent_run_async_impl caps).
Proof.
  intros Hu Hs Hq Ht Hn Ha.
  unfold GatherIterationAgent_run_async_impl, SequentialAgent_run_async_impl. frame.
  - apply PerformSearchAndSummarizeAgent_keeps; assumption.
  - apply EvaluateResearchAgent_keeps; assumption.
Qed.

Lemma _prepare_iteration_context_loop_vars st :
  loop_vars (_prepare_iteration_context st) = loop_vars st.
Proof.
  unfold _prepare_iteration_context. destruct (get_iteration st =? 0); reflexivity.
Qed.

Lemma run_round_loop_vars s :
  loop_vars (ctx (snd (run_round caps s))) = loop_vars (ctx s).
Proof.
  unfold run_round.
  rewrite <- (_prepare_iteration_context_loop_vars (ctx s)). symmetry.
  exact (GatherIterationAgent_keeps loop_vars
           (fun _ _ => eq_refl) (fun _ _ => eq_refl) (fun _ _ => eq_refl)
           (fun _ _ => eq_refl) (fun _ _ => eq_refl) (fun _ _ => eq_refl)
           (with_ctx (_prepare_iteration_context (ctx s)) s)).
Qed.

(** The decision of the loop condition once the budget is reached. *)
Lemma _loop_condition_fn_budget st :
  get_max_budget_iterations st <= get_iteration st -> _loop_condition_fn st = false.
Proof.
  intros H. unfold _loop_condition_fn.
  destruct (Z.leb_spec (get_max_budget_iterations st) (get_iteration st)); [reflexivity | lia].
Qed.

Lemma _loop_condition_fn_true st :
  _loop_condition_fn st = true -> get_iteration st < get_max_budget_iterations st.
Proof.
  intros H. destruct (Z_lt_le_dec (get_iteration st) (get_max_budget_iterations st)) as [Hlt | Hle];
    [assumption |].
  rewrite _loop_condition_fn_budget in H by assumption. discriminate.
Qed.

(** The loop, with rounds left in the budget counted from the current
    round counter: enough fuel gives a run, of at most that many rounds
    (one round when none is left: the condition is looked at after the
    round). *)
Lemma LoopAgent_run_async_impl_bound fuel : forall s,
  (1 <= fuel)%nat ->
  (Z.to_nat (get_max_budget_iterations (ctx s) - get_iteration (ctx s)) <= fuel)%nat ->
  exists r,
    LoopAgent_run_async_impl caps fuel s = Some r /\
    (1 <= rounds r)%nat /\
    (rounds r <= Nat.max 1 (Z.to_nat (get_max_budget_iterations (ctx s)
                                      - get_iteration (ctx s))))%nat.
Proof.
  induction fuel as [| fuel IH]; intros s Hpos Hfuel; [lia |].
  cbn [LoopAgent_run_async_impl]. pose proof (run_round_loop_vars s) as Hv.
  destruct (run_round caps s) as [[ev | e] s']; simpl in Hv.
  - injection Hv as Hi Hm. cbv zeta.
    destruct (_loop_condition_fn (ctx (count_round s'))) eqn:Hc.
    + apply _loop_condition_fn_true in Hc.
      assert (Hi' : get_iteration (ctx (count_round s')) = get_iteration (ctx s) + 1)
        by (simpl; unfold get_iteration at 1; simpl; lia).
      assert (Hm' : get_max_budget_iterations (ctx (count_round s'))
                    = get_max_budget_iterations (ctx s))
        by (simpl; exact Hm).
      destruct (IH (count_round s')) as (r & Hr & H1 & Hle); [lia | lia |].
      rewrite Hr. eexists. split; [reflexivity |]. simpl. lia.
    + eexists. split; [reflexivity |]. simpl. lia.
  - eexists. split; [reflexivity |]. simpl. lia.
Qed.

End Rounds.

(* ===================================================================== *)
(** * The budget is a ceiling *)
(* ===================================================================== *)

Section Budget.

Context {W : Type}.
Variable caps : Capabilities W.

(** C1. Whatever the services answer (the evaluation may ask for more
    queries every time), a gather loop started at round 0 with a budget
    [B >= 1] (the [budget] of the state, or the configured one when the
    state has none) runs to an end and executes at most [B] rounds; and
    the loop condition is false in every state whose round counter has
    reached [max_budget_iterations]. *)
Theorem gather_loop_budget_bound (s : Store W) (B : Z) (fuel : nat) :
  1 <= B ->
  default (cfg_budget RESEARCH_CONFIG) (budget (ctx s)) = B ->
  get_iteration (ctx s) = 0 ->
  (Z.to_nat B <= fuel)%nat ->
  (forall st, get_max_budget_iterations st <= get_iteration st ->
              _loop_condition_fn st = false) /\
  exists r, GatherLoopAgent_run_async_impl caps fuel s = Some r /\
            Z.of_nat (rounds r) <= B.
Proof.
  intros HB Hbudget Hiter Hfuel. split; [apply _loop_condition_fn_budget |].
  unfold GatherLoopAgent_run_async_impl. rewrite Hbudget.
  destruct (initial_queries _) as [qs |] eqn:Hq.
  - set (s1 := with_ctx _ s).
    assert (Hi : get_iteration (ctx s1) = 0) by exact Hiter.
    assert (Hm : get_max_budget_iterations (ctx s1) = B) by reflexivity.
    destruct (LoopAgent_run_async_impl_bound caps fuel s1) as (r & Hr & _ & Hle);
      [lia | rewrite Hi, Hm; lia |].
    rewrite Hr. eexists. split; [reflexivity |]. cbn [rounds].
    rewrite Hi, Hm in Hle. lia.
  - cbn. eexists. split; [reflexivity |]. cbn [rounds]. lia.
Qed.

End Budget.

Lemma gather_loop_budget_bound_witness :
  (forall st, get_max_budget_iterations st <= get_iteration st ->
              _loop_condition_fn st = false) /\
  exists r, GatherLoopAgent_run_async_impl insatiable 2 (seeded ["X"; "Y"]) = Some r /\
            Z.of_nat (rounds r) <= 2.
Proof.
  apply (gather_loop_budget_bound insatiable (seeded ["X"; "Y"]) 2 2);
    [lia | reflexivity | reflexivity | lia].
Defined.

(** The run of the specification's scenario: budget 2, seeds [X] and [Y],
    an evaluation that keeps asking. Two rounds are run, the second on the
    follow-up queries, and the counter ends at 2. *)
Example insatiable_two_rounds :
  exists r, GatherLoopAgent_run_async_impl insatiable 5 (seeded ["X"; "Y"]) = Some r /\
            rounds r = 2%nat /\
            iteration (ctx (final r)) = Some 2 /\
            current_iteration_queries (ctx (final r)) = Some ["Z"; "X"] /\
            _loop_condition_fn (ctx (final r)) = false.
Proof. eexists. split; [vm_compute; reflexivity |]. repeat split. Qed.

(* ===================================================================== *)
(** * The evidence is append-only *)
(* ===================================================================== *)

Section Evidence.

Context {W : Type}.
Variable caps : Capabilities W.
Implicit Types (s : Store W) (st : State).

Lemma _prepare_iteration_context_search_results st :
  search_results (_prepare_iteration_context st) = search_results st.
Proof.
  unfold _prepare_iteration_context. destruct (get_iteration st =? 0); reflexivity.
Qed.

(** After the search stage of a round, nothing writes to the evidence. *)
Lemma run_round_search_results s :
  search_results (ctx (snd (run_round caps s))) =
  search_results (ctx (snd (search_stage_of_round caps s))).
Proof.
  unfold run_round, search_stage_of_round, GatherIterationAgent_run_async_impl,
    SequentialAgent_run_async_impl, bind.
  destruct (PerformSearchAndSummarizeAgent_run_async_impl caps _) as [[ev1 | e1] s1];
    [| reflexivity].
  pose proof (EvaluateResearchAgent_keeps caps search_results
                (fun _ _ => eq_refl) (fun _ _ => eq_refl)
                (fun _ _ => eq_refl) (fun _ _ => eq_refl) s1) as Hk.
  unfold keeps in Hk.
  destruct (EvaluateResearchAgent_run_async_impl caps s1) as [[ev2 | e2] s2];
    simpl in *; [| congruence].
  destruct (is_error_event ev2); simpl; congruence.
Qed.

(** What a round does to the evidence, in terms of its search stage. *)
Lemma run_round_evidence s :
  match fst (search_stage_of_round caps s) with
  | Ok ev =>
      exists new,
        ev = SearchStageEvent (length new) /\
        get_search_results (ctx (snd (run_round caps s))) =
        (get_search_results (ctx s) ++ new)%list
  | Raised _ =>
      get_search_results (ctx (snd (run_round caps s))) = get_search_results (ctx s)
  end.
Proof.
  unfold get_search_results at 1 3. rewrite run_round_search_results.
  unfold search_stage_of_round.
  pose proof (PerformSearchAndSummarizeAgent_evidence caps
                (with_ctx (_prepare_iteration_context (ctx s)) s)) as H.
  destruct (PerformSearchAndSummarizeAgent_run_async_impl caps _) as [[ev | e] s'];
    cbn [fst snd] in *.
  - destruct H as (new & Hev & Hs). exists new. split; [exact Hev |].
    rewrite Hs. unfold get_search_results. cbn [default ctx with_ctx].
    rewrite _prepare_iteration_context_search_results. reflexivity.
  - rewrite H. cbn [ctx with_ctx].
    rewrite _prepare_iteration_context_search_results. reflexivity.
Qed.

Lemma run_round_prefix s :
  get_search_results (ctx s) `prefix_of` get_search_results (ctx (snd (run_round caps s))).
Proof.
  pose proof (run_round_evidence s) as H.
  destruct (fst (search_stage_of_round caps s)) as [ev | e].
  - destruct H as (new & _ & ->). apply prefix_app_r. reflexivity.
  - rewrite H. reflexivity.
Qed.

(** Over a whole run of the loop the evidence at the start is a prefix of
    the evidence at the end. *)
Lemma LoopAgent_run_async_impl_prefix fuel : forall s r,
  LoopAgent_run_async_impl caps fuel s = Some r ->
  get_search_results (ctx s) `prefix_of` get_search_results (ctx (final r)).
Proof.
  induction fuel as [| fuel IH]; intros s r Hr; [discriminate |].
  cbn [LoopAgent_run_async_impl] in Hr. pose proof (run_round_prefix s) as Hp.
  destruct (run_round caps s) as [[ev | e] s']; cbn [snd] in Hp.
  - cbv zeta in Hr.
    destruct (_loop_condition_fn (ctx (count_round s'))).
    + destruct (LoopAgent_run_async_impl caps fuel (count_round s')) as [r' |] eqn:Hr';
        [| discriminate].
      injection Hr as <-. cbn [final].
      etransitivity; [exact Hp |]. exact (IH _ _ Hr').
    + injection Hr as <-. exact Hp.
  - injection Hr as <-. exact Hp.
Qed.

(** C4. The evidence is append-only. For the round that starts in any
    store [s]: the evidence before the round is a prefix of the evidence
    after it, so its length does not decrease; the round adds exactly the
    records its search stage reports, so a round with zero new records
    (or one whose search stage raises) leaves the evidence as it was; the
    records of the next round come after those of this round; and the
    same holds over a whole run of the loop. *)
Theorem evidence_append_only (s : Store W) (fuel : nat) :
  let before := get_search_results (ctx s) in
  let after := get_search_results (ctx (snd (run_round caps s))) in
  let after_next :=
    get_search_results (ctx (snd (run_round caps (count_round (snd (run_round caps s)))))) in
  before `prefix_of` after /\
  (length before <= length after)%nat /\
  match fst (search_stage_of_round caps s) with
  | Ok (SearchStageEvent n) =>
      length after = (length before + n)%nat /\
      (n = 0%nat <-> after = before)
  | Ok _ => False
  | Raised _ => after = before
  end /\
  (exists new new_next,
      after = (before ++ new)%list /\ after_next = ((before ++ new) ++ new_next)%list) /\
  match LoopAgent_run_async_impl caps fuel s with
  | Some r => before `prefix_of` get_search_results (ctx (final r))
  | None => True
  end.
Proof.
  intros before after after_next.
  pose proof (run_round_prefix s) as Hp. fold before after in Hp.
  split; [exact Hp |]. split; [apply prefix_length, Hp |]. split; [| split].
  - pose proof (run_round_evidence s) as H. fold before after in H.
    destruct (fst (search_stage_of_round caps s)) as [ev | e]; [| exact H].
    destruct H as (new & -> & Hafter). rewrite Hafter, length_app.
    split; [reflexivity |]. split.
    + intros Hn. destruct new; [apply app_nil_r | discriminate].
    + intros Heq. apply (f_equal length) in Heq. rewrite length_app in Heq. lia.
  - destruct Hp as [new Hnew].
    pose proof (run_round_prefix (count_round (snd (run_round caps s)))) as [new_next Hnext].
    exists new, new_next. split; [exact Hnew |].
    unfold after_next. rewrite Hnext. f_equal. exact Hnew.
  - destruct (LoopAgent_run_async_impl caps fuel s) as [r |] eqn:Hr; [| exact I].
    exact (LoopAgent_run_async_impl_prefix fuel s r Hr).
Qed.

End Evidence.

(** A round of the scenario adds the two pages found for its two queries,
    and the round after it adds one more after them. *)
Example evidence_of_two_rounds :
  get_search_results (ctx (seeded ["X"; "Y"])) = [] /\
  List.map link (get_search_results (ctx (snd (run_round insatiable (seeded ["X"; "Y"])))))
  = ["https://example.org/X"; "https://example.org/Y"] /\
  List.map link
    (get_search_results
       (ctx (snd (run_round insatiable
                    (count_round (snd (run_round insatiable (seeded ["X"; "Y"]))))))))
  = ["https://example.org/X"; "https://example.org/Y"; "https://example.org/Z";
     "https://example.org/X"].
Proof. vm_compute. repeat split. Qed.

(* ===================================================================== *)
(** * The queries of the next round *)
(* ===================================================================== *)

Section Pending.

Context {W : Type}.
Variable caps : Capabilities W.
Implicit Types (s : Store W) (st : State).

(** A round is its search stage, then its evaluation stage, then the
    [IterationCompletedEvent]. *)
Lemma run_round_unfold s :
  run_round caps s =
  match search_stage_of_round caps s with
  | (Raised e, s1) => (Raised e, s1)
  | (Ok _, s1) =>
      match EvaluateResearchAgent_run_async_impl caps s1 with
      | (Raised e, s2) => (Raised e, s2)
      | (Ok ev, s2) =>
          (Ok ev,
           if is_error_event ev then s2
           else {| ctx := ctx s2;
                   stream := stream s2 ++
                     [IterationCompletedEvent (get_iteration (ctx s2))
                        (length (get_search_results (ctx s2)))];
                   console := console s2; world := world s2 |})
      end
  end.
Proof.
  unfold run_round, search_stage_of_round, GatherIterationAgent_run_async_impl,
    SequentialAgent_run_async_impl, bind.
  destruct (PerformSearchAndSummarizeAgent_run_async_impl caps _) as [[ev1 | e1] s1];
    [| reflexivity].
  destruct (EvaluateResearchAgent_run_async_impl caps s1) as [[ev2 | e2] s2];
    [| reflexivity].
  destruct ev2; reflexivity.
Qed.

(** The evaluation stage when neither of its two calls raises. *)
Lemma EvaluateResearchAgent_answered s r1 w1 r2 w2 :
  evaluation caps (evaluation_request (ctx s)) (world s) = (r1, w1) ->
  raises r1 = false ->
  evaluation_parser caps
    (parser_request (content_or "" r1) (evaluation_request (ctx s))) w1 = (r2, w2) ->
  raises r2 = false ->
  let cur := get_iteration (ctx s) in
  let qs := content_or [] r2 in
  let needs_more := Nat.ltb 0 (length qs) in
  let kept := list_take (maxQueries RESEARCH_CONFIG) qs in
  EvaluateResearchAgent_run_async_impl caps s =
  (Ok (EvaluationStageEvent needs_more (length qs)),
   {| ctx := set_additional_queries kept
               (set_needs_more_research needs_more
                  (parser_request (content_or "" r1) (evaluation_request (ctx s))));
      stream := (stream s ++
                   [EvaluationStartedEvent (length (get_search_results (ctx s))) cur]) ++
                [EvaluationCompletedEvent needs_more
                   (Some (str_take 500 (content_or "" r1))) kept cur];
      console := console s; world := w2 |}).
Proof.
  intros H1 Hr1 H2 Hr2. rewrite EvaluateResearchAgent_unfold. cbv zeta.
  rewrite H1. destruct r1 as [e1 | | t]; try discriminate;
    cbn [content_or] in *; rewrite H2;
    destruct r2 as [e2 | | l]; try discriminate; reflexivity.
Qed.

(** The queries a completed search stage has run are all in
    [all_queries]. *)
Lemma PerformSearchAndSummarizeAgent_all_queries s ev s' :
  PerformSearchAndSummarizeAgent_run_async_impl caps s = (Ok ev, s') ->
  all_queries (ctx s') =
  Some (list_of_set (get_all_queries (ctx s)
                     ++ default [] (current_iteration_queries (ctx s)))).
Proof.
  rewrite PerformSearchAndSummarizeAgent_unfold. cbv zeta.
  pose proof (search_loop_keeps caps all_queries (get_iteration (ctx s))
                (default [] (current_iteration_queries (ctx s)))
                (fun _ _ => eq_refl) s) as Hk.
  unfold keeps in Hk.
  destruct (for_each _ _ s) as [[per_query | e] s1]; [| discriminate].
  intros [= <- <-]. cbn. unfold get_all_queries. cbn in Hk. rewrite Hk. reflexivity.
Qed.

Lemma _prepare_iteration_context_later st :
  get_iteration st <> 0 ->
  current_iteration_queries (_prepare_iteration_context st)
  = Some (get_additional_queries st).
Proof.
  intros H. unfold _prepare_iteration_context.
  destruct (Z.eqb_spec (get_iteration st) 0); [contradiction | reflexivity].
Qed.

End Pending.

Section PendingClaims.

Context {W : Type}.
Variable caps : Capabilities W.
Implicit Types (s : Store W) (st : State).

(** C2, as the code has it. Take a round whose search stage completes and
    whose evaluation stage gets the queries [qs] from the parse step. The
    pending queries of the round after it (round 1 or later) are exactly
    the first [maxQueries] entries of [qs], in order: they are not
    filtered against [all_queries]. What does hold of [all_queries] is
    that it contains every query that was pending in the round. *)
Theorem next_round_runs_the_capped_follow_ups s ev1 s1 r1 w1 qs w2 :
  search_stage_of_round caps s = (Ok ev1, s1) ->
  evaluation caps (evaluation_request (ctx s1)) (world s1) = (r1, w1) ->
  raises r1 = false ->
  evaluation_parser caps
    (parser_request (content_or "" r1) (evaluation_request (ctx s1))) w1
  = (Content qs, w2) ->
  get_iteration (ctx s) + 1 <> 0 ->
  let pending :=
    default [] (current_iteration_queries (_prepare_iteration_context (ctx s))) in
  let s' := count_round (snd (run_round caps s)) in
  current_iteration_queries (_prepare_iteration_context (ctx s'))
  = Some (list_take (maxQueries RESEARCH_CONFIG) qs) /\
  (forall q, q ∈ pending -> q ∈ get_all_queries (ctx s')).
Proof.
  intros Hstage H1 Hr1 H2 Hnext pending s'.
  assert (Hiter : get_iteration (ctx s1) = get_iteration (ctx s)).
  { pose proof (PerformSearchAndSummarizeAgent_keeps caps get_iteration
                  (fun _ _ => eq_refl) (fun _ _ => eq_refl) (fun _ _ => eq_refl)
                  (with_ctx (_prepare_iteration_context (ctx s)) s)) as Hk.
    unfold keeps in Hk. unfold search_stage_of_round in Hstage.
    rewrite Hstage in Hk. cbn [snd ctx with_ctx] in Hk. rewrite <- Hk.
    pose proof (_prepare_iteration_context_loop_vars (ctx s)) as Hv.
    exact (f_equal fst Hv). }
  assert (Hall : all_queries (ctx s1) =
                 Some (list_of_set (get_all_queries (_prepare_iteration_context (ctx s))
                                    ++ pending))).
  { unfold search_stage_of_round in Hstage.
    exact (PerformSearchAndSummarizeAgent_all_queries caps _ _ _ Hstage). }
  assert (Hs' : ctx s' =
                set_iteration (get_iteration (ctx s) + 1)
                  (set_additional_queries (list_take (maxQueries RESEARCH_CONFIG) qs)
                     (set_needs_more_research (Nat.ltb 0 (length qs))
                        (parser_request (content_or "" r1) (evaluation_request (ctx s1)))))).
  { unfold s'. rewrite run_round_unfold, Hstage.
    rewrite (EvaluateResearchAgent_answered caps s1 r1 w1 (Content qs) w2 H1 Hr1 H2 eq_refl).
    cbn. unfold get_iteration in Hiter |- *. cbn. rewrite Hiter. reflexivity. }
  split.
  - rewrite _prepare_iteration_context_later; rewrite Hs'; [reflexivity |].
    unfold get_iteration at 1. cbn. exact Hnext.
  - intros q Hq. rewrite Hs'. unfold get_all_queries. cbn. rewrite Hall. cbn.
    unfold list_of_set. apply elem_of_remove_dups, elem_of_app. right. exact Hq.
Qed.

End PendingClaims.

Lemma next_round_runs_the_capped_follow_ups_witness :
  let s := seeded ["X"; "Y"] in
  let s' := count_round (snd (run_round insatiable s)) in
  current_iteration_queries (_prepare_iteration_context (ctx s')) = Some ["Z"; "X"] /\
  (forall q, q ∈ ["X"; "Y"] -> q ∈ get_all_queries (ctx s')).
Proof.
  apply (next_round_runs_the_capped_follow_ups insatiable (seeded ["X"; "Y"])
           (SearchStageEvent 2)
           (snd (search_stage_of_round insatiable (seeded ["X"; "Y"])))
           (Content "more research is needed") 5%nat ["Z"; "X"; "Q"] 6%nat);
    [vm_compute; reflexivity | vm_compute; reflexivity | reflexivity
    | vm_compute; reflexivity | vm_compute; discriminate].
Defined.

(** C2 as stated fails: in the scenario, [X] was searched in round 0 and is
    in [all_queries] when round 1 starts, the parse step proposes it again,
    the loop goes on, and [X] is pending in round 1. *)
Lemma follow_up_queries_are_not_filtered :
  let s1 := count_round (snd (run_round insatiable (seeded ["X"; "Y"]))) in
  let pending :=
    default [] (current_iteration_queries (_prepare_iteration_context (ctx s1))) in
  get_iteration (ctx s1) = 1 /\
  _loop_condition_fn (ctx s1) = true /\
  ~ (forall q, q ∈ get_all_queries (ctx s1) -> q ∉ pending).
Proof.
  cbv zeta. split; [reflexivity |]. split; [reflexivity |].
  intros H. apply (H "X").
  - apply list_elem_of_In. vm_compute. tauto.
  - apply list_elem_of_In. vm_compute. tauto.
Qed.

(* ===================================================================== *)
(** * The evaluation stage *)
(* ===================================================================== *)

Section Evaluation.

Context {W : Type}.
Variable caps : Capabilities W.
Implicit Types (s : Store W) (st : State).

(** A round whose evaluation asks for nothing more is the last one. *)
Lemma LoopAgent_run_async_impl_sufficient s0 ev1 s ev s2 fuel :
  search_stage_of_round caps s0 = (Ok ev1, s) ->
  EvaluateResearchAgent_run_async_impl caps s = (Ok ev, s2) ->
  needs_more_research (ctx s2) = Some false ->
  exists r, LoopAgent_run_async_impl caps (S fuel) s0 = Some r /\
            rounds r = 1%nat /\ result r = Ok ev.
Proof.
  intros Hstage Heval Hneeds. cbn [LoopAgent_run_async_impl].
  rewrite run_round_unfold, Hstage, Heval. cbv zeta.
  match goal with
  | |- context [_loop_condition_fn ?st] =>
      assert (Hc : _loop_condition_fn st = false)
  end.
  { unfold _loop_condition_fn.
    match goal with |- context [get_needs_more_research ?st] =>
      assert (Hn : get_needs_more_research st = false)
        by (unfold get_needs_more_research; destruct (is_error_event ev);
            cbn; rewrite Hneeds; reflexivity)
    end.
    rewrite Hn. destruct (_ <=? _); reflexivity. }
  rewrite Hc. eexists. split; [reflexivity |]. split; reflexivity.
Qed.

(** C3, as the code has it. Let [r1] be what the evaluation agent gives
    in a round and [r2] what the parsing agent gives, asked with the
    evaluation text (the empty text when [r1] has no content).
    - If either call raises, the stage raises: the exception is not turned
      into an outcome, [needs_more_research] and [additional_queries] are
      left as they were, and the stage has emitted its
      [EvaluationStartedEvent] and nothing else. What becomes of the
      exception is the framework's business and is not stated.
    - If the parsing agent returns no usable content, the outcome is
      "sufficient": [needs_more_research] is false, [additional_queries]
      is empty, and the loop ends at this round.
    - If the evaluation agent returns no content, the parsing agent is
      still asked, and its queries decide the outcome. *)
Theorem evaluation_failure_outcomes s0 ev1 s r1 w1 r2 w2 fuel :
  search_stage_of_round caps s0 = (Ok ev1, s) ->
  evaluation caps (evaluation_request (ctx s)) (world s) = (r1, w1) ->
  evaluation_parser caps
    (parser_request (content_or "" r1) (evaluation_request (ctx s))) w1 = (r2, w2) ->
  let out := EvaluateResearchAgent_run_async_impl caps s in
  let st' := ctx (snd out) in
  let loop := LoopAgent_run_async_impl caps (S fuel) s0 in
  let propagated e :=
    fst out = Raised e /\
    needs_more_research st' = needs_more_research (ctx s) /\
    additional_queries st' = additional_queries (ctx s) /\
    stream (snd out) =
    (stream s ++ [EvaluationStartedEvent (length (get_search_results (ctx s)))
                    (get_iteration (ctx s))])%list in
  match r1, r2 with
  | Raises e, _ => propagated e
  | _, Raises e => propagated e
  | _, NoContent =>
      fst out = Ok (EvaluationStageEvent false 0) /\
      needs_more_research st' = Some false /\
      additional_queries st' = Some [] /\
      exists r, loop = Some r /\ rounds r = 1%nat /\
                result r = Ok (EvaluationStageEvent false 0)
  | NoContent, Content qs =>
      fst out = Ok (EvaluationStageEvent (Nat.ltb 0 (length qs)) (length qs)) /\
      current_eval_text st' = Some "" /\
      needs_more_research st' = Some (Nat.ltb 0 (length qs)) /\
      additional_queries st' = Some (list_take (maxQueries RESEARCH_CONFIG) qs)
  | Content _, Content _ => True
  end.
Proof.
  intros Hstage H1 H2. cbv zeta.
  destruct r1 as [e1 | | t].
  - (* the evaluation agent raises *)
    rewrite EvaluateResearchAgent_unfold. cbv zeta. rewrite H1.
    repeat split.
  - (* the evaluation agent returns no content *)
    destruct r2 as [e2 | | qs].
    + rewrite EvaluateResearchAgent_unfold. cbv zeta. rewrite H1.
      cbn [content_or] in *. rewrite H2. repeat split.
    + pose proof (EvaluateResearchAgent_answered caps s NoContent w1 NoContent w2
                    H1 eq_refl H2 eq_refl) as Hout.
      cbv zeta in Hout.
      destruct (LoopAgent_run_async_impl_sufficient _ _ _ _ _ fuel Hstage Hout eq_refl)
        as (r & Hr & Hrounds & Hres).
      rewrite Hout. repeat split. exists r. repeat split; assumption.
    + pose proof (EvaluateResearchAgent_answered caps s NoContent w1 (Content qs) w2
                    H1 eq_refl H2 eq_refl) as Hout.
      cbv zeta in Hout. rewrite Hout. repeat split.
  - (* the evaluation agent returns a text *)
    destruct r2 as [e2 | | qs]; [| | exact I].
    + rewrite EvaluateResearchAgent_unfold. cbv zeta. rewrite H1.
      cbn [content_or] in *. rewrite H2. repeat split.
    + pose proof (EvaluateResearchAgent_answered caps s (Content t) w1 NoContent w2
                    H1 eq_refl H2 eq_refl) as Hout.
      cbv zeta in Hout.
      destruct (LoopAgent_run_async_impl_sufficient _ _ _ _ _ fuel Hstage Hout eq_refl)
        as (r & Hr & Hrounds & Hres).
      rewrite Hout. repeat split. exists r. repeat split; assumption.
Qed.

End Evaluation.

Lemma evaluation_failure_outcomes_witness :
  let s0 := seeded ["X"] in
  let s := snd (search_stage_of_round silent_parser s0) in
  let out := EvaluateResearchAgent_run_async_impl silent_parser s in
  fst out = Ok (EvaluationStageEvent false 0) /\
  needs_more_research (ctx (snd out)) = Some false /\
  additional_queries (ctx (snd out)) = Some [] /\
  exists r, LoopAgent_run_async_impl silent_parser 3 s0 = Some r /\
            rounds r = 1%nat /\ result r = Ok (EvaluationStageEvent false 0).
Proof.
  apply (evaluation_failure_outcomes silent_parser (seeded ["X"]) (SearchStageEvent 1)
           (snd (search_stage_of_round silent_parser (seeded ["X"])))
           (Content "more research is needed") 3%nat NoContent 4%nat 2);
    vm_compute; reflexivity.
Defined.

(** C3 as stated fails: the evaluation agent returns nothing in round 0,
    the parsing agent is asked all the same and proposes [Z], so the outcome
    is not "sufficient" and the loop runs a second round. *)
Lemma silent_evaluation_is_not_sufficient :
  let s0 := seeded ["X"] in
  let s := snd (search_stage_of_round silent_judge s0) in
  let st' := ctx (snd (EvaluateResearchAgent_run_async_impl silent_judge s)) in
  fst (evaluation silent_judge (evaluation_request (ctx s)) (world s)) = NoContent /\
  ~ (needs_more_research st' = Some false /\ additional_queries st' = Some []) /\
  exists r, GatherLoopAgent_run_async_impl silent_judge 5 s0 = Some r /\
            rounds r = 2%nat /\
            current_iteration_queries (ctx (final r)) = Some ["Z"].
Proof.
  cbv zeta. split; [reflexivity |]. split.
  - intros [H _]. vm_compute in H. discriminate.
  - eexists. split; [vm_compute; reflexivity |]. split; reflexivity.
Qed.

(** When the evaluation agent raises, so does the stage, and it has
    stored no outcome. *)
Example raising_evaluation_leaves_the_stage :
  let s := snd (search_stage_of_round raising_judge (seeded ["X"])) in
  let out := EvaluateResearchAgent_run_async_impl raising_judge s in
  fst out = Raised "evaluation model unreachable" /\
  needs_more_research (ctx (snd out)) = None /\
  additional_queries (ctx (snd out)) = None.
Proof. cbv zeta. split; [vm_compute; reflexivity |]. split; reflexivity. Qed.

Section EvaluationOutcome.

Context {W : Type}.
Variable caps : Capabilities W.
Implicit Types (s : Store W) (st : State).

(** The cap keeps at least one query of a non-empty list. *)
Lemma list_take_maxQueries_nil (qs : list string) :
  list_take (maxQueries RESEARCH_CONFIG) qs = [] <-> qs = [].
Proof.
  unfold list_take. change (0 <=? maxQueries RESEARCH_CONFIG) with true.
  change (Z.to_nat (maxQueries RESEARCH_CONFIG)) with 2%nat.
  destruct qs; cbn; split; intros H; congruence.
Qed.

Lemma no_query_found (qs : list string) :
  Nat.ltb 0 (length qs) = false <-> qs = [].
Proof. destruct qs; cbn; split; intros H; congruence. Qed.

Lemma outcome_flags (qs : list string) :
  (Nat.ltb 0 (length qs) = false <-> list_take (maxQueries RESEARCH_CONFIG) qs = []) /\
  (Nat.ltb 0 (length qs) = false <-> length qs = 0%nat).
Proof.
  rewrite list_take_maxQueries_nil, no_query_found.
  split; [reflexivity | symmetry; apply length_zero_iff_nil].
Qed.

(** C5. When the evaluation stage completes, the flag it stores and
    reports is false exactly when the follow-up list it stores and
    reports is empty, which is exactly when the parse step gave no
    query. *)
Theorem sufficient_iff_no_follow_up s ev s' :
  EvaluateResearchAgent_run_async_impl caps s = (Ok ev, s') ->
  exists needs_more kept found reasoning,
    ev = EvaluationStageEvent needs_more found /\
    needs_more_research (ctx s') = Some needs_more /\
    additional_queries (ctx s') = Some kept /\
    last (stream s') =
    Some (EvaluationCompletedEvent needs_more reasoning kept (get_iteration (ctx s))) /\
    (needs_more = false <-> kept = []) /\
    (needs_more = false <-> found = 0%nat).
Proof.
  rewrite EvaluateResearchAgent_unfold. cbv zeta.
  destruct (evaluation caps _ _) as [r1 w1].
  destruct r1 as [e1 | | t]; [discriminate | |];
    (destruct (evaluation_parser caps _ _) as [r2 w2];
     destruct r2 as [e2 | | qs]; [discriminate | |];
     intros [= <- <-];
     do 4 eexists;
     (split; [reflexivity |]); (split; [reflexivity |]); (split; [reflexivity |]);
     (split; [apply last_snoc |]);
     first [exact (outcome_flags []) | exact (outcome_flags qs)]).
Qed.

(** C6. When the parse step gives the queries [qs], the list stored for
    the next round is [qs] cut to [maxQueries] entries: it has at most
    [maxQueries] entries, it is all of [qs] when [qs] is short enough and
    otherwise exactly the first [maxQueries] entries of [qs] in their
    order; and from round 1 on the pending queries of a round are the
    stored list. *)
Theorem follow_ups_are_capped s r1 w1 qs w2 :
  evaluation caps (evaluation_request (ctx s)) (world s) = (r1, w1) ->
  raises r1 = false ->
  evaluation_parser caps
    (parser_request (content_or "" r1) (evaluation_request (ctx s))) w1
  = (Content qs, w2) ->
  let st' := ctx (snd (EvaluateResearchAgent_run_async_impl caps s)) in
  let cap := Z.to_nat (maxQueries RESEARCH_CONFIG) in
  additional_queries st' = Some (take cap qs) /\
  (length (get_additional_queries st') <= cap)%nat /\
  ((length qs <= cap)%nat -> get_additional_queries st' = qs) /\
  ((cap < length qs)%nat ->
     length (get_additional_queries st') = cap /\
     forall i, (i < cap)%nat -> get_additional_queries st' !! i = qs !! i) /\
  (forall st, get_iteration st <> 0 ->
     current_iteration_queries (_prepare_iteration_context st)
     = Some (get_additional_queries st)).
Proof.
  intros H1 Hr1 H2 st' cap.
  assert (Hst : additional_queries st' = Some (take cap qs)).
  { unfold st'.
    rewrite (EvaluateResearchAgent_answered caps s r1 w1 (Content qs) w2 H1 Hr1 H2 eq_refl).
    reflexivity. }
  unfold get_additional_queries. rewrite Hst. cbn [default from_option id].
  split; [reflexivity |]. split; [rewrite length_take; lia |].
  split; [intros Hle; apply take_ge; exact Hle |].
  split; [| apply _prepare_iteration_context_later].
  intros Hlt. split; [rewrite length_take; lia |].
  intros i Hi. apply lookup_take_lt. exact Hi.
Qed.

End EvaluationOutcome.

Lemma sufficient_iff_no_follow_up_witness :
  exists needs_more kept found reasoning,
    EvaluationStageEvent true 3 = EvaluationStageEvent needs_more found /\
    needs_more_research
      (ctx (snd (EvaluateResearchAgent_run_async_impl insatiable midway))) = Some needs_more /\
    additional_queries
      (ctx (snd (EvaluateResearchAgent_run_async_impl insatiable midway))) = Some kept /\
    last (stream (snd (EvaluateResearchAgent_run_async_impl insatiable midway))) =
    Some (EvaluationCompletedEvent needs_more reasoning kept (get_iteration (ctx midway))) /\
    (needs_more = false <-> kept = []) /\
    (needs_more = false <-> found = 0%nat).
Proof.
  apply (sufficient_iff_no_follow_up insatiable midway (EvaluationStageEvent true 3)
           (snd (EvaluateResearchAgent_run_async_impl insatiable midway))).
  vm_compute. reflexivity.
Defined.

Lemma follow_ups_are_capped_witness :
  let st' := ctx (snd (EvaluateResearchAgent_run_async_impl insatiable midway)) in
  additional_queries st' = Some ["Z"; "X"] /\
  (length (get_additional_queries st') <= 2)%nat /\
  ((3 <= 2)%nat -> get_additional_queries st' = ["Z"; "X"; "Q"]) /\
  ((2 < 3)%nat ->
     length (get_additional_queries st') = 2%nat /\
     forall i, (i < 2)%nat -> get_additional_queries st' !! i = ["Z"; "X"; "Q"] !! i) /\
  (forall st, get_iteration st <> 0 ->
     current_iteration_queries (_prepare_iteration_context st)
     = Some (get_additional_queries st)).
Proof.
  apply (follow_ups_are_capped insatiable midway (Content "more research is needed") 1%nat
           ["Z"; "X"; "Q"] 2%nat); reflexivity.
Defined.

(* ===================================================================== *)
(** * An empty seed *)
(* ===================================================================== *)

Section EmptySeed.

Context {W : Type}.
Variable caps : Capabilities W.

(** C7, as the code has it. With an empty list of initial queries the
    orchestrator does not invoke the gather loop: no round is run, the
    state, the event stream and the world are left as they are, one line
    is printed on the console, and the run goes on as a normal one. The
    gather loop has a guard for a missing [initial_queries] key only: it
    prints a line and returns an error event without running a round.
    With a non-empty list the step is the run of the gather loop. *)
Theorem empty_seed_skips_the_gather_loop (fuel : nat) (s : Store W) :
  match initial_queries (ctx s) with
  | Some [] =>
      let s' := {| ctx := ctx s; stream := stream s;
                   console := console s ++
                              ["No initial queries generated. Skipping gather phase."];
                   world := world s |} in
      gather_step caps fuel s = Some (Ok tt, s') /\
      gather_step_guarded caps fuel s = Some (true, s')
  | Some (_ :: _) =>
      gather_step caps fuel s =
      match GatherLoopAgent_run_async_impl caps fuel s with
      | Some r => Some (match result r with Ok _ => Ok tt | Raised e => Raised e end,
                        final r)
      | None => None
      end
  | None =>
      exists r,
        GatherLoopAgent_run_async_impl caps fuel s = Some r /\
        rounds r = 0%nat /\
        result r = Ok (AgentErrorEvent "Initial queries not provided") /\
        stream (final r) = stream s /\
        world (final r) = world s /\
        search_results (ctx (final r)) = search_results (ctx s)
  end.
Proof.
  destruct (initial_queries (ctx s)) as [[| q qs] |] eqn:Hq.
  - unfold gather_step_guarded, gather_step. rewrite Hq. split; reflexivity.
  - unfold gather_step. rewrite Hq. reflexivity.
  - unfold GatherLoopAgent_run_async_impl. cbn [initial_queries set_iteration
      set_max_budget_iterations]. rewrite Hq. cbn.
    eexists. repeat split.
Qed.

End EmptySeed.

(** C7 as stated fails on the report: with an empty seed the gather step
    ends as a normal one, the state is untouched, and no event reaches the
    stream: the line on the console is all there is. *)
Lemma empty_seed_is_not_reported :
  exists s',
    gather_step_guarded insatiable 5 (seeded []) = Some (true, s') /\
    ctx s' = ctx (seeded []) /\
    console s' = ["No initial queries generated. Skipping gather phase."] /\
    ~ (exists e, e ∈ stream s').
Proof.
  eexists. split; [vm_compute; reflexivity |]. split; [reflexivity |].
  split; [reflexivity |]. intros [e He]. cbn in He. inversion He.
Qed.

(** The gather loop itself, were it invoked on an empty seed, would run
    round 0 without a query, ask the evaluation, and go on. *)
Example gather_loop_on_an_empty_seed :
  exists r, GatherLoopAgent_run_async_impl insatiable 5 (seeded []) = Some r /\
            rounds r = 2%nat.
Proof. eexists. split; [vm_compute; reflexivity | reflexivity]. Qed.

(* ===================================================================== *)
(** * The web-search tool *)
(* ===================================================================== *)

Section StringSlices.

Lemma substring_0_length (n : nat) (s : string) :
  String.length (String.substring 0 n s) = Nat.min n (String.length s).
Proof.
  revert n. induction s as [| c s IH]; intros [| n]; simpl; try reflexivity.
  rewrite IH. reflexivity.
Qed.

Lemma substring_0_prefix (n : nat) (s : string) :
  exists rest, s = String.substring 0 n s +:+ rest.
Proof.
  revert n. induction s as [| c s IH]; intros [| n]; simpl.
  - exists "". reflexivity.
  - exists "". reflexivity.
  - exists (String c s). reflexivity.
  - destruct (IH n) as [rest Hrest]. exists rest. exact (f_equal (String c) Hrest).
Qed.

(** [s[:n]] for [n >= 0]: at most [n] characters, exactly [n] when [s] is
    longer, and always a prefix of [s]. *)
Lemma str_take_length (n : Z) (s : string) :
  0 <= n ->
  Z.of_nat (String.length (str_take n s)) = Z.min n (Z.of_nat (String.length s)).
Proof.
  intros Hn. unfold str_take. destruct (Z.leb_spec 0 n); [| lia].
  rewrite substring_0_length. lia.
Qed.

Lemma str_take_prefix (n : Z) (s : string) :
  exists rest, s = str_take n s +:+ rest.
Proof. unfold str_take. destruct (0 <=? n); apply substring_0_prefix. Qed.

Lemma or_str_truthy (a : option string) (b : string) :
  truthy b = true -> truthy (or_str a b) = true.
Proof.
  intros Hb. unfold or_str. destruct a as [s |]; [| exact Hb].
  destruct (truthy s) eqn:Hs; assumption.
Qed.

End StringSlices.

Section WebSearch.

Variable P : Providers.

(** The tool gets past the key check: the configured Brave key is not
    empty. After a Brave reply it returns, in candidate order, the record
    of every scraped candidate that has content. *)
Lemma _search_on_web_implementation_after_brave query k1 k2 web_results :
  brave_get P query = BraveJson web_results ->
  let candidates := scrape_candidates (List.map candidate_of (default [] web_results)) in
  _search_on_web_implementation P query k1 k2 =
  Ok {| returned :=
          keep_scraped (imap (fun i sr => scrape_task (scrape_url P i (cand_link sr)) sr)
                          candidates);
        scrape_calls := List.map cand_link candidates |}.
Proof.
  intros Hb. unfold _search_on_web_implementation.
  rewrite (or_str_truthy k1 BRAVE_API_KEY eq_refl). cbn [negb]. rewrite Hb. reflexivity.
Qed.

Lemma _search_on_web_implementation_raises_brave query k1 k2 e :
  brave_get P query = BraveRaises e ->
  _search_on_web_implementation P query k1 k2 = Ok {| returned := []; scrape_calls := [] |}.
Proof.
  intros Hb. unfold _search_on_web_implementation.
  rewrite (or_str_truthy k1 BRAVE_API_KEY eq_refl). cbn [negb]. rewrite Hb. reflexivity.
Qed.

(** A scraped record, read back: the candidate and the reply it is made
    from. *)
Lemma scrape_task_Some reply sr r :
  scrape_task reply sr = Some r ->
  exists md err,
    reply = ScrapeDict true md err /\
    r = {| title := cand_title sr; link := cand_link sr;
           content := str_take 80000 (clean_markdown sr (default "" md));
           summary := None |}.
Proof.
  destruct reply as [e | | [|] md err]; cbn; try discriminate.
  intros [= <-]. exists md, err. split; reflexivity.
Qed.

Lemma elem_of_keep_scraped (r : SearchResult) (results : list (option SearchResult)) :
  r ∈ keep_scraped results <-> Some r ∈ results /\ truthy (content r) = true.
Proof.
  unfold keep_scraped. rewrite list_elem_of_omap. split.
  - intros ([x |] & Hin & Hx); [| discriminate].
    destruct (truthy (content x)) eqn:Ht; [| discriminate].
    injection Hx as ->. split; assumption.
  - intros [Hin Ht]. exists (Some r). split; [exact Hin |]. rewrite Ht. reflexivity.
Qed.

Lemma _search_on_web_implementation_returned query k1 k2 run r :
  _search_on_web_implementation P query k1 k2 = Ok run ->
  r ∈ returned run ->
  exists web_results i sr md err,
    brave_get P query = BraveJson web_results /\
    scrape_candidates (List.map candidate_of (default [] web_results)) !! i = Some sr /\
    scrape_url P i (cand_link sr) = ScrapeDict true md err /\
    r = {| title := cand_title sr; link := cand_link sr;
           content := str_take 80000 (clean_markdown sr (default "" md));
           summary := None |}.
Proof.
  intros Hrun Hr. destruct (brave_get P query) as [e | web_results] eqn:Hb.
  - rewrite (_search_on_web_implementation_raises_brave _ _ _ _ Hb) in Hrun.
    injection Hrun as <-. cbn in Hr. inversion Hr.
  - rewrite (_search_on_web_implementation_after_brave _ _ _ _ Hb) in Hrun.
    injection Hrun as <-. cbn [returned] in Hr.
    apply elem_of_keep_scraped in Hr as [Hin _].
    apply elem_of_lookup_imap_1 in Hin as (i & sr & Htask & Hsr).
    symmetry in Htask.
    apply scrape_task_Some in Htask as (md & err & Hreply & ->).
    exists web_results, i, sr, md, err. repeat split; assumption.
Qed.

(** C8. After a Brave reply the tool awaits [scrape_url] once for each
    candidate with a link, and no more: a failed fetch is not tried again.
    Every candidate whose own fetch succeeds and leaves content gives its
    record in the result, whatever happens to the fetches of the others;
    and every record of the result comes from such a candidate. *)
Theorem failed_fetch_drops_only_that_candidate query k1 k2 web_results :
  brave_get P query = BraveJson web_results ->
  let candidates := scrape_candidates (List.map candidate_of (default [] web_results)) in
  let record sr md :=
    {| title := cand_title sr; link := cand_link sr;
       content := str_take 80000 (clean_markdown sr (default "" md));
       summary := None |} in
  exists run,
    _search_on_web_implementation P query k1 k2 = Ok run /\
    scrape_calls run = List.map cand_link candidates /\
    (forall i sr md err,
        candidates !! i = Some sr ->
        scrape_url P i (cand_link sr) = ScrapeDict true md err ->
        truthy (content (record sr md)) = true ->
        record sr md ∈ returned run) /\
    (forall r,
        r ∈ returned run ->
        exists i sr md err,
          candidates !! i = Some sr /\
          scrape_url P i (cand_link sr) = ScrapeDict true md err /\
          r = record sr md).
Proof.
  intros Hb candidates record.
  pose proof (_search_on_web_implementation_after_brave query k1 k2 web_results Hb) as Hrun.
  cbv zeta in Hrun. fold candidates in Hrun.
  eexists. split; [exact Hrun |]. split; [reflexivity |]. split.
  - intros i sr md err Hsr Hreply Hcontent. cbn [returned].
    apply elem_of_keep_scraped. split; [| exact Hcontent].
    apply elem_of_lookup_imap. exists i, sr. split; [| exact Hsr].
    rewrite Hreply. reflexivity.
  - intros r Hr.
    destruct (_search_on_web_implementation_returned _ _ _ _ _ Hrun Hr)
      as (web_results' & i & sr & md & err & Hb' & Hsr & Hreply & ->).
    rewrite Hb in Hb'. injection Hb' as <-.
    exists i, sr, md, err. repeat split; assumption.
Qed.

(** C10. Every record the tool returns holds the cleaned page cut to its
    first 80000 characters: the content is a prefix of the cleaned page,
    of length the smaller of 80000 and the page's length. *)
Theorem scraped_content_is_cut_to_80000 query k1 k2 run r :
  _search_on_web_implementation P query k1 k2 = Ok run ->
  r ∈ returned run ->
  Z.of_nat (String.length (content r)) <= 80000 /\
  exists i sr md err,
    scrape_url P i (cand_link sr) = ScrapeDict true md err /\
    let cleaned := clean_markdown sr (default "" md) in
    content r = str_take 80000 cleaned /\
    (exists rest, cleaned = content r +:+ rest) /\
    Z.of_nat (String.length (content r)) = Z.min 80000 (Z.of_nat (String.length cleaned)).
Proof.
  intros Hrun Hr.
  destruct (_search_on_web_implementation_returned _ _ _ _ _ Hrun Hr)
    as (web_results & i & sr & md & err & _ & _ & Hreply & ->).
  cbn [content].
  pose proof (str_take_length 80000 (clean_markdown sr (default "" md)) ltac:(lia)) as Hlen.
  split; [lia |].
  exists i, sr, md, err. split; [exact Hreply |]. cbv zeta.
  split; [reflexivity |]. split; [apply str_take_prefix | exact Hlen].
Qed.

End WebSearch.

Lemma failed_fetch_drops_only_that_candidate_witness :
  exists run,
    _search_on_web_implementation three_candidates "a query" None None = Ok run /\
    scrape_calls run = ["https://a.example"; "https://b.example"; "https://c.example"] /\
    {| title := "A"; link := "https://a.example";
       content := "Text of https://a.example"; summary := None |} ∈ returned run /\
    {| title := "C"; link := "https://c.example";
       content := "Text of https://c.example"; summary := None |} ∈ returned run.
Proof.
  destruct (failed_fetch_drops_only_that_candidate three_candidates "a query" None None
              (Some [ {| brave_title := Some "A"; brave_url := Some "https://a.example" |};
                      {| brave_title := Some "B"; brave_url := Some "https://b.example" |};
                      {| brave_title := Some "C"; brave_url := Some "https://c.example" |} ])
              eq_refl) as (run & Hrun & Hcalls & Hkept & _).
  exists run. split; [exact Hrun |]. split; [exact Hcalls |]. split.
  - apply (Hkept 0%nat {| cand_title := "A"; cand_link := "https://a.example" |}
             (Some "Text of https://a.example") None); vm_compute; reflexivity.
  - apply (Hkept 2%nat {| cand_title := "C"; cand_link := "https://c.example" |}
             (Some "Text of https://c.example") None); vm_compute; reflexivity.
Defined.

(** The run of the three candidates: the second is dropped, the other two
    are returned in their order, and each page was asked for once. *)
Example three_candidates_run :
  _search_on_web_implementation three_candidates "a query" None None =
  Ok {| returned :=
          [ {| title := "A"; link := "https://a.example";
               content := "Text of https://a.example"; summary := None |};
            {| title := "C"; link := "https://c.example";
               content := "Text of https://c.example"; summary := None |} ];
        scrape_calls := ["https://a.example"; "https://b.example"; "https://c.example"] |}.
Proof. vm_compute. reflexivity. Qed.

Lemma scraped_content_is_cut_to_80000_witness :
  let r := {| title := "A"; link := "https://a.example";
              content := "Text of https://a.example"; summary := None |} in
  Z.of_nat (String.length (content r)) <= 80000.
Proof.
  apply (scraped_content_is_cut_to_80000 three_candidates "a query" None None
           {| returned :=
                [ {| title := "A"; link := "https://a.example";
                     content := "Text of https://a.example"; summary := None |};
                  {| title := "C"; link := "https://c.example";
                     content := "Text of https://c.example"; summary := None |} ];
              scrape_calls := ["https://a.example"; "https://b.example"; "https://c.example"] |}).
  - vm_compute. reflexivity.
  - apply list_elem_of_In. simpl. tauto.
Defined.

(* ===================================================================== *)
(** * Summaries *)
(* ===================================================================== *)

Section Summaries.

Context {W : Type}.
Variable caps : Capabilities W.
Implicit Types (s : Store W) (st : State).






End Summaries.



(* ===================================================================== *)
(** * The queries used so far *)
(* ===================================================================== *)

Section AllQueries.

Context {W : Type}.
Variable caps : Capabilities W.
Implicit Types (s : Store W) (st : State).

(** X1. A search stage that completes leaves [all_queries] without
    duplicates, holding exactly the queries it held before and the
    queries of this round. A search stage that raises leaves both
    [all_queries] and the evidence as they were: what the round had
    gathered before the exception is not merged. *)
Theorem all_queries_after_the_search_stage s :
  match PerformSearchAndSummarizeAgent_run_async_impl caps s with
  | (Ok _, s') =>
      NoDup (get_all_queries (ctx s')) /\
      forall q, q ∈ get_all_queries (ctx s') <->
                q ∈ get_all_queries (ctx s) \/
                q ∈ default [] (current_iteration_queries (ctx s))
  | (Raised _, s') =>
      all_queries (ctx s') = all_queries (ctx s) /\
      search_results (ctx s') = search_results (ctx s)
  end.
Proof.
  pose proof (PerformSearchAndSummarizeAgent_evidence caps s) as Hev.
  destruct (PerformSearchAndSummarizeAgent_run_async_impl caps s) as [[ev | e] s'] eqn:Hrun.
  - unfold get_all_queries at 1 2.
    rewrite (PerformSearchAndSummarizeAgent_all_queries caps s ev s'); [| exact Hrun].
    cbn [default from_option id]. unfold list_of_set. split.
    + apply NoDup_remove_dups.
    + intros q. rewrite elem_of_remove_dups, elem_of_app. reflexivity.
  - split; [| exact Hev].
    rewrite PerformSearchAndSummarizeAgent_unfold in Hrun. cbv zeta in Hrun.
    pose proof (search_loop_keeps caps all_queries (get_iteration (ctx s))
                  (default [] (current_iteration_queries (ctx s)))
                  (fun _ _ => eq_refl) s) as Hk.
    unfold keeps in Hk.
    destruct (for_each _ _ s) as [[per_query | e'] s1]; [discriminate |].
    injection Hrun as _ <-. symmetry. exact Hk.
Qed.

End AllQueries.

(* ===================================================================== *)
(** * The events of a round *)
(* ===================================================================== *)

Section Emits.

Context {W : Type}.
Implicit Types (s : Store W) (st : State).

#[global] Instance emits_refl (P : StreamEvent -> Prop) : Reflexive (@emits W P).
Proof. intros s. exists []. split; [symmetry; apply app_nil_r | constructor]. Qed.

#[global] Instance emits_trans (P : StreamEvent -> Prop) : Transitive (@emits W P).
Proof.
  intros s1 s2 s3 (n1 & H1 & F1) (n2 & H2 & F2). exists (n1 ++ n2)%list. split.
  - rewrite H2, H1. symmetry. apply app_assoc.
  - apply Forall_app. split; assumption.
Qed.

(** A computation that leaves the stream alone emits nothing. *)
Lemma respects_emits_silent {A} (P : StreamEvent -> Prop) (m : M W A) :
  (forall s, stream (snd (m s)) = stream s) -> respects (emits P) m.
Proof.
  intros Hm s. exists []. split; [rewrite Hm; symmetry; apply app_nil_r | constructor].
Qed.

Lemma respects_emits_add_event (P : StreamEvent -> Prop) e i :
  P (fill_iteration i e) -> respects (emits P) (add_event (W:=W) e i).
Proof.
  intros HP s. exists [fill_iteration i e]. split; [reflexivity |].
  constructor; [exact HP | constructor].
Qed.

Lemma stream_invoke {A} (call : State -> W -> Reply A * W) s :
  stream (snd (invoke call s)) = stream s.
Proof.
  unfold invoke. destruct (call (ctx s) (world s)) as [[e | | a] w]; reflexivity.
Qed.

Lemma emits_weaken (P Q : StreamEvent -> Prop) s s' :
  (forall e, P e -> Q e) -> emits P s s' -> emits Q s s'.
Proof.
  intros HPQ (new & Hnew & HF). exists new. split; [exact Hnew |].
  eapply Forall_impl; [exact HF | exact HPQ].
Qed.

(** [bind get_state k] runs [k] on the state of the store. *)
Lemma bind_get_state {A} (k : State -> M W A) s :
  bind get_state k s = k (ctx s) s.
Proof. reflexivity. Qed.

End Emits.

(** [emit]: the goal [respects (emits P) m], down to the events [m] emits
    and the computations it calls. *)
Ltac emit_step :=
  lazymatch goal with
  | |- respects _ (bind _ _) =>
      apply respects_bind; try typeclasses eauto; [| intros ?]
  | |- respects _ (for_each _ _) =>
      apply respects_for_each; try typeclasses eauto; intros ?
  | |- respects _ (modify_state _) =>
      apply respects_emits_silent; intros ?; reflexivity
  | |- respects _ (ret _) => apply respects_ret; typeclasses eauto
  | |- respects _ get_state => apply respects_get_state; typeclasses eauto
  | |- respects _ (print _) => apply respects_emits_silent; intros ?; reflexivity
  | |- respects _ (invoke _) => apply respects_emits_silent; intros ?; apply stream_invoke
  | |- respects _ (add_event _ _) => apply respects_emits_add_event
  | |- respects _ (let _ := _ in _) => cbv zeta
  end.

Ltac emit := repeat emit_step.

(** [of_round c types e] for a concrete event [e]. *)
Ltac of_round :=
  split; [reflexivity | apply list_elem_of_In; simpl; tauto].

Section RoundEvents.

Context {W : Type}.
Variable caps : Capabilities W.
Implicit Types (s : Store W) (st : State).

Lemma summarize_search_result_emits c q sr :
  respects (emits (of_round c search_stage_types)) (summarize_search_result caps c q sr).
Proof. unfold summarize_search_result. emit; of_round. Qed.

Lemma search_and_summarize_query_emits c q :
  respects (emits (of_round c search_stage_types)) (search_and_summarize_query caps c q).
Proof.
  unfold search_and_summarize_query. emit; try of_round.
  apply summarize_search_result_emits.
Qed.

(** The search stage emits events of its four types only, all with the
    round index the state holds. *)
Lemma PerformSearchAndSummarizeAgent_emits s :
  emits (of_round (get_iteration (ctx s)) search_stage_types) s
    (snd (PerformSearchAndSummarizeAgent_run_async_impl caps s)).
Proof.
  unfold PerformSearchAndSummarizeAgent_run_async_impl. rewrite bind_get_state. cbv zeta.
  generalize (default [] (current_iteration_queries (ctx s))) as qs.
  generalize (get_iteration (ctx s)) as c. intros c qs. revert s.
  match goal with
  | |- forall s, emits ?P s (snd (?m s)) => change (respects (emits P) m)
  end.
  emit. apply search_and_summarize_query_emits.
Qed.

(** The evaluation stage emits events of its two types only, all with the
    round index the state holds. *)
Lemma EvaluateResearchAgent_emits s :
  emits (of_round (get_iteration (ctx s)) evaluation_stage_types) s
    (snd (EvaluateResearchAgent_run_async_impl caps s)).
Proof.
  unfold EvaluateResearchAgent_run_async_impl. rewrite bind_get_state. cbv zeta.
  generalize (length (get_search_results (ctx s))) as n.
  generalize (get_iteration (ctx s)) as c. intros c n. revert s.
  match goal with
  | |- forall s, emits ?P s (snd (?m s)) => change (respects (emits P) m)
  end.
  emit; of_round.
Qed.

End RoundEvents.

Section RoundTrace.

Context {W : Type}.
Variable caps : Capabilities W.
Implicit Types (s : Store W) (st : State).

Lemma of_round_weaken c types types' e :
  types ⊆ types' -> of_round c types e -> of_round c types' e.
Proof. intros Hsub [Hi Ht]. split; [exact Hi | apply Hsub, Ht]. Qed.

(** The trace of a round: the events of its two stages, all with the
    index of the round, closed by the [IterationCompletedEvent] when the
    round completes. *)
Lemma run_round_trace s :
  let c := get_iteration (ctx s) in
  let stage_types := (search_stage_types ++ evaluation_stage_types)%list in
  match run_round caps s with
  | (Ok _, s') =>
      exists stages,
        stream s' =
        ((stream s ++ stages) ++
         [IterationCompletedEvent c (length (get_search_results (ctx s')))])%list /\
        Forall (of_round c stage_types) stages
  | (Raised _, s') => emits (of_round c stage_types) s s'
  end.
Proof.
  intros c stage_types. rewrite run_round_unfold. unfold search_stage_of_round.
  set (s0 := with_ctx (_prepare_iteration_context (ctx s)) s).
  assert (Hc0 : get_iteration (ctx s0) = c)
    by exact (f_equal fst (_prepare_iteration_context_loop_vars (ctx s))).
  pose proof (PerformSearchAndSummarizeAgent_emits caps s0) as H1.
  pose proof (PerformSearchAndSummarizeAgent_keeps caps get_iteration
                (fun _ _ => eq_refl) (fun _ _ => eq_refl) (fun _ _ => eq_refl) s0) as K1.
  unfold keeps in K1. rewrite Hc0 in H1, K1.
  destruct (PerformSearchAndSummarizeAgent_run_async_impl caps s0) as [[ev1 | e1] s1];
    cbn [snd] in H1, K1.
  - pose proof (EvaluateResearchAgent_emits caps s1) as H2.
    pose proof (EvaluateResearchAgent_keeps caps get_iteration
                  (fun _ _ => eq_refl) (fun _ _ => eq_refl)
                  (fun _ _ => eq_refl) (fun _ _ => eq_refl) s1) as K2.
    unfold keeps in K2. rewrite <- K1 in H2, K2.
    assert (H12 : emits (of_round c stage_types) s
                    (snd (EvaluateResearchAgent_run_async_impl caps s1))).
    { transitivity s1.
      - eapply emits_weaken; [| exact H1]. intros e.
        apply of_round_weaken. intros t Ht. apply elem_of_app. left. exact Ht.
      - eapply emits_weaken; [| exact H2]. intros e.
        apply of_round_weaken. intros t Ht. apply elem_of_app. right. exact Ht. }
    destruct (EvaluateResearchAgent_run_async_impl caps s1) as [[ev2 | e2] s2] eqn:Heval;
      cbn [snd] in H12, K2; [| exact H12].
    assert (Hev2 : is_error_event ev2 = false).
    { rewrite EvaluateResearchAgent_unfold in Heval. cbv zeta in Heval.
      destruct (evaluation caps _ _) as [[x | | t] w1]; [discriminate | |];
        destruct (evaluation_parser caps _ _) as [[y | | l] w2]; try discriminate;
        injection Heval as <- _; reflexivity. }
    rewrite Hev2. destruct H12 as (stages & Hstream & HF).
    exists stages. cbn [stream ctx]. rewrite <- K2, Hstream. split; [reflexivity | exact HF].
  - eapply emits_weaken; [| exact H1]. intros e.
    apply of_round_weaken. intros t Ht. apply elem_of_app. left. exact Ht.
Qed.

(** X2. A round only appends to the stream, and every event it appends,
    whether the round completes or raises, carries the index of the
    round: also the content events, whose [iteration] is filled in by
    [add_event]. *)
Theorem round_events_carry_the_round_index s :
  exists new,
    stream (snd (run_round caps s)) = (stream s ++ new)%list /\
    Forall (fun e => event_iteration e = Some (get_iteration (ctx s))) new.
Proof.
  pose proof (run_round_trace s) as H. cbv zeta in H.
  destruct (run_round caps s) as [[ev | e] s']; cbn [snd].
  - destruct H as (stages & Hstream & HF).
    exists (stages ++ [IterationCompletedEvent (get_iteration (ctx s))
                         (length (get_search_results (ctx s')))])%list.
    split; [rewrite Hstream; symmetry; apply app_assoc |].
    apply Forall_app. split.
    + eapply Forall_impl; [exact HF |]. intros e [Hi _]. exact Hi.
    + repeat constructor.
  - destruct H as (new & Hstream & HF). exists new. split; [exact Hstream |].
    eapply Forall_impl; [exact HF |]. intros x [Hi _]. exact Hi.
Qed.

(** X3. A round that completes closes with one [IterationCompletedEvent]:
    it is the last event of the stream, no event of the round before it
    is of that type, and it carries the index of the round and the number
    of records in the evidence. A round that raises emits none. *)
Theorem iteration_completed_closes_a_completed_round s :
  match run_round caps s with
  | (Ok _, s') =>
      exists stages,
        stream s' =
        ((stream s ++ stages) ++
         [IterationCompletedEvent (get_iteration (ctx s))
            (length (get_search_results (ctx s')))])%list /\
        Forall (fun e => event_type e <> "iteration_completed") stages
  | (Raised _, s') =>
      exists new,
        stream s' = (stream s ++ new)%list /\
        Forall (fun e => event_type e <> "iteration_completed") new
  end.
Proof.
  assert (Hnot : forall e,
            of_round (get_iteration (ctx s))
              (search_stage_types ++ evaluation_stage_types)%list e ->
            event_type e <> "iteration_completed").
  { intros e [_ Ht] Heq. rewrite Heq in Ht.
    apply list_elem_of_In in Ht. simpl in Ht.
    repeat (destruct Ht as [Ht | Ht]; [discriminate |]). exact Ht. }
  pose proof (run_round_trace s) as H. cbv zeta in H.
  destruct (run_round caps s) as [[ev | e] s'].
  - destruct H as (stages & Hstream & HF). exists stages. split; [exact Hstream |].
    eapply Forall_impl; [exact HF | exact Hnot].
  - destruct H as (new & Hstream & HF). exists new. split; [exact Hstream |].
    eapply Forall_impl; [exact HF | exact Hnot].
Qed.

End RoundTrace.

Section SearchEvents.

Context {W : Type}.
Variable caps : Capabilities W.
Implicit Types (s : Store W) (st : State).

Lemma adds_silent {A T} (f : StreamEvent -> option T) (m : M W A) :
  (forall s, stream (snd (m s)) = stream s) -> adds f m [].
Proof.
  intros Hm s. exists []. split; [rewrite Hm; symmetry; apply app_nil_r |].
  destruct (fst (m s)); reflexivity.
Qed.

Lemma adds_add_event {T} (f : StreamEvent -> option T) e i :
  adds f (add_event (W:=W) e i) (option_list (f (fill_iteration i e))).
Proof.
  intros s. exists [fill_iteration i e]. split; [reflexivity |].
  cbn. destruct (f (fill_iteration i e)); reflexivity.
Qed.

Lemma adds_bind {A B T} (f : StreamEvent -> option T) (m : M W A) (k : A -> M W B) l1 l2 :
  adds f m l1 -> (forall a, adds f (k a) l2) -> adds f (bind m k) (l1 ++ l2).
Proof.
  intros Hm Hk s. unfold bind.
  destruct (Hm s) as (n1 & H1 & F1).
  destruct (m s) as [[a | e] s1]; cbn [fst snd] in *.
  - destruct (Hk a s1) as (n2 & H2 & F2).
    exists (n1 ++ n2)%list. split; [rewrite H2, H1; symmetry; apply app_assoc |].
    rewrite omap_app, F1.
    destruct (fst (k a s1)); [rewrite F2; reflexivity | apply prefix_app, F2].
  - exists n1. split; [exact H1 |]. apply prefix_app_r, F1.
Qed.

Lemma adds_for_each {A B T} (f : StreamEvent -> option T) (g : A -> M W B)
    (h : A -> list T) (l : list A) :
  (forall x, adds f (g x) (h x)) -> adds f (for_each g l) (concat (List.map h l)).
Proof.
  intros Hg. induction l as [| x l IH]; cbn [for_each List.map concat].
  - apply adds_silent. reflexivity.
  - apply adds_bind; [apply Hg |]. intros y.
    rewrite <- (app_nil_r (concat (List.map h l))).
    apply adds_bind; [exact IH |]. intros ys. apply adds_silent. reflexivity.
Qed.

Lemma concat_map_nil {A T} (l : list A) : concat (List.map (fun _ => @nil T) l) = [].
Proof. induction l; [reflexivity | exact IHl]. Qed.

Lemma concat_map_singleton {A} (l : list A) : concat (List.map (fun x => [x]) l) = l.
Proof. induction l as [| x l IH]; [reflexivity |]. cbn. rewrite IH. reflexivity. Qed.

(** The summarizing of a result adds no search event. *)
Lemma summarize_search_result_adds {T} (f : StreamEvent -> option T) c q sr :
  (forall e, event_type e ∈ ["content_processing"; "content_summarized"] -> f e = None) ->
  adds f (summarize_search_result caps c q sr) [].
Proof.
  intros Hf. unfold summarize_search_result.
  change (@nil T) with (option_list (@None T) ++ ([] ++ ([] ++ (option_list (@None T) ++ []))))%list.
  apply adds_bind.
  { rewrite <- (Hf (fill_iteration (Some c)
                      (ContentProcessingEvent (link sr) (or_str (Some (title sr)) "") q
                         (Some (content sr)) None))).
    - apply adds_add_event.
    - apply list_elem_of_In. simpl. tauto. }
  intros _. apply adds_bind; [apply adds_silent; reflexivity |].
  intros _. apply adds_bind; [apply adds_silent; intros s; apply stream_invoke |].
  intros r. cbv zeta. apply adds_bind; [| intros _; apply adds_silent; reflexivity].
  rewrite <- (Hf (fill_iteration (Some c)
                    (ContentSummarizedEvent (link sr) (title sr) q
                       (Some (str_take 100 (default "Summary not available." r))) None))).
  - apply adds_add_event.
  - apply list_elem_of_In. simpl. tauto.
Qed.

(** The search for one query adds its two search events and then only
    content events. *)
Lemma search_and_summarize_query_adds {T} (f : StreamEvent -> option T) c q a b :
  (forall e, event_type e ∈ ["content_processing"; "content_summarized"] -> f e = None) ->
  f (SearchStartedEvent q c) = a ->
  (forall urls n, f (SearchCompletedEvent q urls n c) = b) ->
  adds f (search_and_summarize_query caps c q) (option_list a ++ option_list b).
Proof.
  intros Hf Ha Hb. unfold search_and_summarize_query.
  apply adds_bind; [rewrite <- Ha; apply adds_add_event |].
  intros _. change (option_list b) with ([] ++ option_list b)%list.
  apply adds_bind; [apply adds_silent; intros s; apply stream_invoke |].
  intros r. cbv zeta. rewrite <- (app_nil_r (option_list b)).
  apply adds_bind.
  - rewrite <- (Hb (List.map link (default [] r)) (length (default [] r))).
    apply adds_add_event.
  - intros _. rewrite <- (concat_map_nil (T:=T) (default [] r)).
    apply adds_for_each. intros sr. apply summarize_search_result_adds, Hf.
Qed.

Lemma content_events_are_no_search_events (e : StreamEvent) :
  event_type e ∈ ["content_processing"; "content_summarized"] ->
  search_started_query e = None /\ search_completed_query e = None.
Proof.
  intros He. apply list_elem_of_In in He. simpl in He.
  destruct e; split; try reflexivity;
    repeat (destruct He as [He | He]; [discriminate |]); contradiction.
Qed.

(** The search events of the loop over the pending queries. *)
Lemma search_loop_adds c (pending : list string) :
  adds search_started_query
    (for_each (search_and_summarize_query caps c) pending) pending /\
  adds search_completed_query
    (for_each (search_and_summarize_query caps c) pending) pending.
Proof.
  split.
  - rewrite <- (concat_map_singleton pending) at 2.
    apply adds_for_each. intros q.
    apply (search_and_summarize_query_adds search_started_query _ q (Some q) None);
      [intros e He; exact (proj1 (content_events_are_no_search_events e He))
      | reflexivity | reflexivity].
  - rewrite <- (concat_map_singleton pending) at 2.
    apply adds_for_each. intros q.
    apply (search_and_summarize_query_adds search_completed_query _ q None (Some q));
      [intros e He; exact (proj2 (content_events_are_no_search_events e He))
      | reflexivity | reflexivity].
Qed.

(** X4. A search stage that completes has emitted one [SearchStartedEvent]
    and one [SearchCompletedEvent] for each pending query of the round,
    in the order of the pending queries, and no other search event. When
    the stage raises, the queries it has announced and the queries it has
    completed are the first pending ones. *)
Theorem one_search_event_pair_per_query s :
  let pending := default [] (current_iteration_queries (ctx s)) in
  exists new,
    stream (snd (PerformSearchAndSummarizeAgent_run_async_impl caps s)) =
    (stream s ++ new)%list /\
    match fst (PerformSearchAndSummarizeAgent_run_async_impl caps s) with
    | Ok _ =>
        omap search_started_query new = pending /\
        omap search_completed_query new = pending
    | Raised _ =>
        omap search_started_query new `prefix_of` pending /\
        omap search_completed_query new `prefix_of` pending
    end.
Proof.
  intros pending. rewrite PerformSearchAndSummarizeAgent_unfold. cbv zeta.
  fold pending.
  destruct (search_loop_adds (get_iteration (ctx s)) pending) as [Hstarted Hcompleted].
  destruct (Hstarted s) as (new & Hnew & Hs).
  destruct (Hcompleted s) as (new' & Hnew' & Hc).
  rewrite Hnew in Hnew'. apply app_inv_head in Hnew'. subst new'.
  destruct (for_each _ pending s) as [[per_query | e] s1]; cbn [fst snd stream with_ctx] in *;
    exists new; (split; [exact Hnew |]); split; assumption.
Qed.

End SearchEvents.

Lemma omap_cons_eq {A T} (f : A -> option T) x l :
  omap f (x :: l) = match f x with Some y => y :: omap f l | None => omap f l end.
Proof. reflexivity. Qed.

Section RoundPayloads.

Context {W : Type}.
Variable caps : Capabilities W.
Implicit Types (s : Store W) (st : State).

Lemma str_take_le (n : Z) (t : string) :
  0 <= n -> Z.of_nat (String.length (str_take n t)) <= n.
Proof. intros Hn. rewrite str_take_length by exact Hn. lia. Qed.

Lemma list_take_le {A} (n : Z) (l : list A) :
  0 <= n -> Z.of_nat (length (list_take n l)) <= n.
Proof.
  intros Hn. unfold list_take. destruct (Z.leb_spec 0 n); [| lia].
  rewrite length_take. lia.
Qed.

(** A round emits what its two stages emit and an
    [IterationCompletedEvent]. *)
Lemma run_round_emits (P : StreamEvent -> Prop) :
  respects (emits P) (PerformSearchAndSummarizeAgent_run_async_impl caps) ->
  respects (emits P) (EvaluateResearchAgent_run_async_impl caps) ->
  (forall i n, P (IterationCompletedEvent i n)) ->
  respects (emits P) (run_round caps).
Proof.
  intros H1 H2 H3 s. rewrite run_round_unfold. unfold search_stage_of_round.
  specialize (H1 (with_ctx (_prepare_iteration_context (ctx s)) s)).
  change (emits P s (snd (PerformSearchAndSummarizeAgent_run_async_impl caps
                            (with_ctx (_prepare_iteration_context (ctx s)) s)))) in H1.
  destruct (PerformSearchAndSummarizeAgent_run_async_impl caps _) as [[ev1 | e1] s1];
    cbn [snd] in *; [| exact H1].
  specialize (H2 s1).
  destruct (EvaluateResearchAgent_run_async_impl caps s1) as [[ev2 | e2] s2];
    cbn [snd] in *; [| transitivity s1; assumption].
  transitivity s2; [transitivity s1; assumption |].
  destruct (is_error_event ev2); [reflexivity |].
  eexists. split; [reflexivity |]. repeat constructor. apply H3.
Qed.

(** X5. Every event a round appends to the stream is cut as the event
    promises: a [search_completed] event counts its urls, a summary
    excerpt has at most 100 characters, the reasoning of an evaluation at
    most 500, and an evaluation reports at most [maxQueries] follow-up
    queries. *)
Theorem round_events_are_cut_to_their_bounds s :
  exists new,
    stream (snd (run_round caps s)) = (stream s ++ new)%list /\
    Forall payload_in_bounds new.
Proof.
  revert s. change (respects (emits payload_in_bounds) (run_round caps)).
  apply run_round_emits.
  - unfold PerformSearchAndSummarizeAgent_run_async_impl, search_and_summarize_query,
      summarize_search_result.
    emit; cbn [fill_iteration payload_in_bounds default from_option id].
    + exact I.
    + symmetry. apply length_map.
    + exact I.
    + match goal with
      | |- (String.length (str_take 100 ?t) <= 100)%nat =>
          pose proof (str_take_le 100 t)
      end. lia.
  - unfold EvaluateResearchAgent_run_async_impl.
    emit; cbn [fill_iteration payload_in_bounds default from_option id].
    + exact I.
    + split.
      * match goal with
        | |- (String.length (str_take 500 ?t) <= 500)%nat =>
            pose proof (str_take_le 500 t)
        end. lia.
      * apply list_take_le. unfold maxQueries, RESEARCH_CONFIG. lia.
  - intros i n. exact I.
Qed.

(** X6. A completed evaluation stage has appended two events: an
    [EvaluationStartedEvent] with the number of evidence records, and an
    [EvaluationCompletedEvent] that reports what the stage has stored in
    the state: the flag [needs_more_research], the list
    [additional_queries], and as reasoning the first 500 characters of
    [current_eval_text]. *)
Theorem evaluation_events_report_the_stored_outcome s ev s' :
  EvaluateResearchAgent_run_async_impl caps s = (Ok ev, s') ->
  exists text needs_more kept,
    current_eval_text (ctx s') = Some text /\
    needs_more_research (ctx s') = Some needs_more /\
    additional_queries (ctx s') = Some kept /\
    stream s' =
    (stream s ++
     [EvaluationStartedEvent (length (get_search_results (ctx s))) (get_iteration (ctx s));
      EvaluationCompletedEvent needs_more (Some (str_take 500 text)) kept
        (get_iteration (ctx s))])%list.
Proof.
  rewrite EvaluateResearchAgent_unfold. cbv zeta.
  destruct (evaluation caps _ _) as [[e1 | | t] w1]; [discriminate | |];
    destruct (evaluation_parser caps _ _) as [[e2 | | l] w2]; try discriminate;
    intros [= _ <-]; cbn [ctx stream];
    (eexists _, _, _; repeat split; [reflexivity .. |]);
    rewrite <- app_assoc; reflexivity.
Qed.

(** X7. With what a completed evaluation stage has stored,
    [_loop_condition_fn] asks for another round exactly when the budget
    is not used up and [needs_more_research] is set, whatever the round
    counter is: the exit for an evaluation that wants more research
    without new queries is never taken. *)
Theorem loop_condition_after_an_evaluation s ev s' i :
  EvaluateResearchAgent_run_async_impl caps s = (Ok ev, s') ->
  _loop_condition_fn (set_iteration i (ctx s')) =
  (i <? get_max_budget_iterations (ctx s')) && get_needs_more_research (ctx s').
Proof.
  rewrite EvaluateResearchAgent_unfold. cbv zeta.
  assert (Hflags : forall (qs : list string) st,
            let st' := set_additional_queries (list_take (maxQueries RESEARCH_CONFIG) qs)
                         (set_needs_more_research (Nat.ltb 0 (length qs)) st) in
            _loop_condition_fn (set_iteration i st') =
            (i <? get_max_budget_iterations st') && get_needs_more_research st').
  { intros qs st st'. unfold _loop_condition_fn. cbv zeta.
    change (get_iteration (set_iteration i st')) with i.
    change (get_max_budget_iterations (set_iteration i st'))
      with (get_max_budget_iterations st').
    change (get_needs_more_research (set_iteration i st'))
      with (Nat.ltb 0 (length qs)).
    change (get_needs_more_research st') with (Nat.ltb 0 (length qs)).
    change (get_additional_queries (set_iteration i st'))
      with (list_take (maxQueries RESEARCH_CONFIG) qs).
    rewrite Z.ltb_antisym.
    destruct (get_max_budget_iterations st' <=? i); [reflexivity |].
    destruct qs as [| q qs]; [reflexivity |].
    destruct (list_take (maxQueries RESEARCH_CONFIG) (q :: qs)) eqn:Hkept; [| reflexivity].
    apply list_take_maxQueries_nil in Hkept. discriminate. }
  destruct (evaluation caps _ _) as [[e1 | | t] w1]; [discriminate | |];
    destruct (evaluation_parser caps _ _) as [[e2 | | l] w2]; try discriminate;
    intros [= _ <-]; cbn [ctx]; apply Hflags.
Qed.

(** X8. The orchestrator stores at most [maxQueries] seed queries; a
    round that starts with capped query lists runs at most [maxQueries]
    pending queries, announces at most that many searches on the stream,
    and leaves the query lists capped for the next round. *)
Theorem rounds_run_at_most_maxQueries_queries s :
  (forall topic queries,
      queries_capped (store_initial_queries queries (initial_state topic))) /\
  (queries_capped (ctx s) ->
   Z.of_nat (length (default [] (current_iteration_queries
                                   (_prepare_iteration_context (ctx s)))))
   <= maxQueries RESEARCH_CONFIG /\
   (exists new,
       stream (snd (run_round caps s)) = (stream s ++ new)%list /\
       Z.of_nat (length (omap search_started_query new)) <= maxQueries RESEARCH_CONFIG) /\
   queries_capped (ctx (snd (run_round caps s)))).
Proof.
  split.
  { intros topic queries. split.
    - apply (list_take_le (maxQueries RESEARCH_CONFIG) queries).
      unfold maxQueries, RESEARCH_CONFIG. lia.
    - cbn. unfold maxQueries, RESEARCH_CONFIG. lia. }
  intros [Hseed Hmore].
  set (s0 := with_ctx (_prepare_iteration_context (ctx s)) s).
  assert (Hpending : Z.of_nat (length (default [] (current_iteration_queries (ctx s0))))
                     <= maxQueries RESEARCH_CONFIG).
  { unfold s0, _prepare_iteration_context. cbv zeta. cbn [ctx with_ctx].
    destruct (get_iteration (ctx s) =? 0); cbn; assumption. }
  assert (Hcap0 : queries_capped (ctx s0)).
  { unfold s0, _prepare_iteration_context. cbv zeta. cbn [ctx with_ctx].
    destruct (get_iteration (ctx s) =? 0); split; assumption. }
  split; [exact Hpending |].
  rewrite run_round_unfold. unfold search_stage_of_round. fold s0.
  pose proof (PerformSearchAndSummarizeAgent_keeps caps
                (fun st => (initial_queries st, additional_queries st))
                (fun _ _ => eq_refl) (fun _ _ => eq_refl) (fun _ _ => eq_refl) s0) as K1.
  unfold keeps in K1.
  assert (Hcap1 : queries_capped
                    (ctx (snd (PerformSearchAndSummarizeAgent_run_async_impl caps s0)))).
  { unfold queries_capped, get_additional_queries in *.
    injection K1 as <- <-. exact Hcap0. }
  clear K1.
  rewrite PerformSearchAndSummarizeAgent_unfold in *. cbv zeta in *.
  destruct (proj1 (search_loop_adds caps (get_iteration (ctx s0))
                     (default [] (current_iteration_queries (ctx s0)))) s0)
    as (new1 & Hnew1 & Hstarted).
  change (stream s0) with (stream s) in Hnew1.
  destruct (for_each _ _ s0) as [[per_query | e] s1]; cbn [fst snd] in *.
  2:{ split; [| exact Hcap1]. exists new1. split; [exact Hnew1 |].
      apply prefix_length in Hstarted. lia. }
  match goal with
  | |- context [EvaluateResearchAgent_run_async_impl caps ?x] => set (s1' := x) in *
  end.
  pose proof (EvaluateResearchAgent_emits caps s1') as (new2 & Hnew2 & Htypes).
  assert (Hnone : omap search_started_query new2 = []).
  { clear Hnew2. induction Htypes as [| e l [_ He] _ IH]; [reflexivity |].
    rewrite omap_cons_eq, IH. apply list_elem_of_In in He. simpl in He.
    destruct e; try reflexivity;
      repeat (destruct He as [He | He]; [discriminate |]); contradiction. }
  change (stream s1') with (stream s1) in Hnew2.
  pose proof (EvaluateResearchAgent_keeps caps initial_queries
                (fun _ _ => eq_refl) (fun _ _ => eq_refl)
                (fun _ _ => eq_refl) (fun _ _ => eq_refl) s1') as K2.
  unfold keeps in K2.
  assert (Hcap2 : queries_capped (ctx (snd (EvaluateResearchAgent_run_async_impl caps s1')))).
  { destruct Hcap1 as [Hseed1 Hmore1]. split; [rewrite <- K2; exact Hseed1 |].
    rewrite EvaluateResearchAgent_unfold. cbv zeta.
    destruct (evaluation caps _ _) as [[e1 | | t] w1]; [exact Hmore1 | |];
      destruct (evaluation_parser caps _ _) as [[e2 | | l] w2]; try exact Hmore1;
      cbn [snd ctx]; unfold get_additional_queries;
      cbn [additional_queries set_additional_queries default from_option id];
      apply list_take_le; unfold maxQueries, RESEARCH_CONFIG; lia. }
  assert (Hcount : Z.of_nat (length (omap search_started_query (new1 ++ new2)%list))
                   <= maxQueries RESEARCH_CONFIG).
  { rewrite omap_app, Hnone, app_nil_r, Hstarted. exact Hpending. }
  destruct (EvaluateResearchAgent_run_async_impl caps s1') as [[ev2 | e2] s2];
    cbn [fst snd] in *.
  - destruct (is_error_event ev2); cbn [ctx stream snd]; (split; [| exact Hcap2]).
    + exists (new1 ++ new2)%list. split; [| exact Hcount].
      rewrite Hnew2, Hnew1. symmetry. apply app_assoc.
    + eexists ((new1 ++ new2) ++ [_])%list. split.
      * rewrite Hnew2, Hnew1, !app_assoc. reflexivity.
      * rewrite omap_app. cbn [omap list_omap search_started_query].
        rewrite app_nil_r. exact Hcount.
  - split; [| exact Hcap2]. exists (new1 ++ new2)%list. split; [| exact Hcount].
    rewrite Hnew2, Hnew1. symmetry. apply app_assoc.
Qed.

End RoundPayloads.

Lemma rounds_run_at_most_maxQueries_queries_witness :
  queries_capped (ctx (seeded ["X"; "Y"])) /\
  queries_capped (ctx (snd (run_round insatiable (seeded ["X"; "Y"])))).
Proof.
  assert (H : queries_capped (ctx (seeded ["X"; "Y"]))).
  { split; vm_compute; discriminate. }
  split; [exact H |].
  exact (proj2 (proj2 (proj2 (rounds_run_at_most_maxQueries_queries insatiable
                                (seeded ["X"; "Y"])) H))).
Defined.

Lemma evaluation_events_report_the_stored_outcome_witness :
  exists text needs_more kept,
    current_eval_text
      (ctx (snd (EvaluateResearchAgent_run_async_impl insatiable (seeded ["X"]))))
    = Some text /\
    needs_more_research
      (ctx (snd (EvaluateResearchAgent_run_async_impl insatiable (seeded ["X"]))))
    = Some needs_more /\
    additional_queries
      (ctx (snd (EvaluateResearchAgent_run_async_impl insatiable (seeded ["X"]))))
    = Some kept /\
    stream (snd (EvaluateResearchAgent_run_async_impl insatiable (seeded ["X"]))) =
    (stream (seeded ["X"]) ++
     [EvaluationStartedEvent (length (get_search_results (ctx (seeded ["X"]))))
        (get_iteration (ctx (seeded ["X"])));
      EvaluationCompletedEvent needs_more (Some (str_take 500 text)) kept
        (get_iteration (ctx (seeded ["X"])))])%list.
Proof.
  apply (evaluation_events_report_the_stored_outcome insatiable (seeded ["X"])
           (EvaluationStageEvent true 3)).
  vm_compute. reflexivity.
Defined.

Lemma loop_condition_after_an_evaluation_witness :
  _loop_condition_fn
    (set_iteration 1
       (ctx (snd (EvaluateResearchAgent_run_async_impl insatiable (seeded ["X"]))))) = true.
Proof.
  rewrite (loop_condition_after_an_evaluation insatiable (seeded ["X"])
             (EvaluationStageEvent true 3)
             (snd (EvaluateResearchAgent_run_async_impl insatiable (seeded ["X"]))) 1).
  - reflexivity.
  - vm_compute. reflexivity.
Defined.

(* ===================================================================== *)
(** * The web-search tool: what a run returns *)
(* ===================================================================== *)

Section WebSearchRuns.

Variable P : Providers.

(** The records that are kept come in the order of the tasks. *)
Lemma keep_scraped_imap_sublist (l : list Candidate) :
  forall g : nat -> Candidate -> option SearchResult,
    (forall i sr r, g i sr = Some r -> link r = cand_link sr) ->
    List.map link (keep_scraped (imap g l)) `sublist_of` List.map cand_link l.
Proof.
  induction l as [| sr l IH]; intros g Hg; [constructor |].
  cbn [imap List.map]. unfold keep_scraped. rewrite omap_cons_eq. fold keep_scraped.
  fold (keep_scraped (imap (g ∘ S) l)).
  assert (IH' : List.map link (keep_scraped (imap (g ∘ S) l))
                `sublist_of` List.map cand_link l).
  { apply IH. intros i sr' r Hr. exact (Hg (S i) sr' r Hr). }
  destruct (g 0%nat sr) as [r |] eqn:Hr; [| apply sublist_cons, IH'].
  destruct (truthy (content r)); [| apply sublist_cons, IH'].
  cbn [List.map]. rewrite (Hg _ _ _ Hr). apply sublist_skip, IH'.
Qed.

Lemma scrape_task_link reply sr r : scrape_task reply sr = Some r -> link r = cand_link sr.
Proof. intros H. apply scrape_task_Some in H as (md & err & _ & ->). reflexivity. Qed.

Lemma elem_of_scrape_candidates sr (raw : list Candidate) :
  sr ∈ scrape_candidates raw -> truthy (cand_link sr) = true.
Proof.
  intros H. apply list_elem_of_In in H. unfold scrape_candidates in H.
  apply filter_In in H. exact (proj2 H).
Qed.

(** With the clients at hand the tool returns a list. When the Brave
    request fails, or its body has no web results, the list is empty and
    no page is scraped. *)
Lemma _search_on_web_implementation_total query k1 k2 :
  exists run,
    tools._search_on_web_implementation P query k1 k2 = Ok run /\
    match brave_get P query with
    | BraveJson (Some (_ :: _)) => True
    | _ => returned run = [] /\ scrape_calls run = []
    end.
Proof.
  destruct (brave_get P query) as [e | [[| r results] |]] eqn:Hb.
  - eexists. split; [exact (_search_on_web_implementation_raises_brave P _ k1 k2 _ Hb) |].
    split; reflexivity.
  - eexists. split; [exact (_search_on_web_implementation_after_brave P _ k1 k2 _ Hb) |].
    split; reflexivity.
  - eexists. split; [exact (_search_on_web_implementation_after_brave P _ k1 k2 _ Hb) |].
    exact I.
  - eexists. split; [exact (_search_on_web_implementation_after_brave P _ k1 k2 _ Hb) |].
    split; reflexivity.
Qed.

(** X9. The tool raises exactly when one of its client objects does:
    when entering or leaving the HTTP client raises, or when building the
    Firecrawl client raises after a Brave reply. The key check never
    raises with the configured key, and no failure of the Brave request
    or of a scrape makes the tool raise. With working clients the tool is
    the one modelled without them: it returns a list, which is empty,
    with no page scraped, when the Brave request fails or its body has no
    web results; after a failed Brave request the Firecrawl client is not
    even built. *)
Theorem web_search_raises_only_when_a_client_does (C : web_search_clients.Clients)
    query k1 k2 :
  let out := web_search_clients._search_on_web_implementation C P query k1 k2 in
  (forall e,
      out = Raised e <->
      web_search_clients.client_enter C = Some e \/
      (web_search_clients.client_enter C = None /\
       web_search_clients.client_exit C = Some e) \/
      (web_search_clients.client_enter C = None /\
       web_search_clients.client_exit C = None /\
       (exists web_results, brave_get P query = BraveJson web_results) /\
       web_search_clients.firecrawl_app C = Some e)) /\
  (web_search_clients.client_enter C = None ->
   web_search_clients.client_exit C = None ->
   (forall e, brave_get P query = BraveRaises e ->
              out = Ok {| returned := []; scrape_calls := [] |}) /\
   (web_search_clients.firecrawl_app C = None ->
    out = tools._search_on_web_implementation P query k1 k2 /\
    exists run,
      out = Ok run /\
      match brave_get P query with
      | BraveJson (Some (_ :: _)) => True
      | _ => returned run = [] /\ scrape_calls run = []
      end)).
Proof.
  cbv zeta.
  unfold web_search_clients._search_on_web_implementation,
    tools._search_on_web_implementation.
  rewrite (or_str_truthy k1 BRAVE_API_KEY eq_refl). cbn [negb]. cbv zeta.
  split.
  - intros e.
    destruct (web_search_clients.client_enter C) as [e0 |].
    { split.
      - intros [= ->]. left. reflexivity.
      - intros [[= ->] | [[H _] | [H _]]]; [reflexivity | discriminate | discriminate]. }
    destruct (web_search_clients.client_exit C) as [e1 |].
    { destruct (brave_get P query); split.
      - intros [= ->]. right. left. split; reflexivity.
      - intros [H | [[_ [= ->]] | (_ & H & _)]]; [discriminate | reflexivity | discriminate].
      - intros [= ->]. right. left. split; reflexivity.
      - intros [H | [[_ [= ->]] | (_ & H & _)]]; [discriminate | reflexivity | discriminate]. }
    destruct (brave_get P query) as [e2 | web_results].
    { split; [discriminate |].
      intros [H | [[_ H] | (_ & _ & [r H] & _)]]; discriminate. }
    destruct (web_search_clients.firecrawl_app C) as [e3 |].
    + split.
      * intros [= ->]. right. right. repeat split. exists web_results. reflexivity.
      * intros [H | [[_ H] | (_ & _ & _ & [= ->])]]; [discriminate | discriminate | reflexivity].
    + split; [discriminate |].
      intros [H | [[_ H] | (_ & _ & _ & H)]]; discriminate.
  - intros -> ->. split.
    + intros e ->. reflexivity.
    + intros ->.
      split; [destruct (brave_get P query); reflexivity |].
      destruct (_search_on_web_implementation_total query k1 k2) as (run & Hrun & Hempty).
      exists run. split; [| exact Hempty].
      rewrite <- Hrun. unfold tools._search_on_web_implementation.
      rewrite (or_str_truthy k1 BRAVE_API_KEY eq_refl). cbn [negb].
      destruct (brave_get P query); reflexivity.
Qed.

Lemma scrape_calls_of_results (results : list BraveResult) :
  List.map cand_link (scrape_candidates (List.map candidate_of results))
  = List.filter truthy (List.map (fun r => default "" (brave_url r)) results).
Proof.
  unfold scrape_candidates. induction results as [| r results IH]; [reflexivity |].
  cbn [List.map List.filter]. change (cand_link (candidate_of r)) with (default "" (brave_url r)).
  destruct (truthy (default "" (brave_url r))); cbn [List.map]; rewrite IH; reflexivity.
Qed.

(** X10. The records a run returns come in the order of the Brave
    results. The pages that are scraped are exactly the non-empty urls of
    the Brave results, in their order and as often as they occur (none
    when the request fails or the body has no results); the links of the
    returned records are a sublist of them. A returned record has a link
    and content, and no summary yet. *)
Theorem returned_records_keep_the_brave_order query k1 k2 run :
  tools._search_on_web_implementation P query k1 k2 = Ok run ->
  scrape_calls run =
  match brave_get P query with
  | BraveJson (Some results) =>
      List.filter truthy (List.map (fun r => default "" (brave_url r)) results)
  | _ => []
  end /\
  List.map link (returned run) `sublist_of` scrape_calls run /\
  Forall (fun r => truthy (link r) = true /\ truthy (content r) = true /\ summary r = None)
    (returned run).
Proof.
  intros Hrun. split; [| split].
  - destruct (brave_get P query) as [e | web_results] eqn:Hb.
    + rewrite (_search_on_web_implementation_raises_brave P _ _ _ _ Hb) in Hrun.
      injection Hrun as <-. reflexivity.
    + rewrite (_search_on_web_implementation_after_brave P _ _ _ _ Hb) in Hrun.
      injection Hrun as <-. cbn [scrape_calls].
      destruct web_results as [results |]; [| reflexivity].
      cbn [default from_option id]. apply scrape_calls_of_results.
  - destruct (brave_get P query) as [e | web_results] eqn:Hb.
    + rewrite (_search_on_web_implementation_raises_brave P _ _ _ _ Hb) in Hrun.
      injection Hrun as <-. constructor.
    + rewrite (_search_on_web_implementation_after_brave P _ _ _ _ Hb) in Hrun.
      injection Hrun as <-. cbn [returned scrape_calls].
      apply keep_scraped_imap_sublist. intros i sr r. apply scrape_task_link.
  - apply Forall_forall. intros r Hr.
    pose proof Hr as Hr'.
    destruct (_search_on_web_implementation_returned P _ _ _ _ _ Hrun Hr)
      as (web_results & i & sr & md & err & Hb & Hsr & Hreply & Heq).
    rewrite (_search_on_web_implementation_after_brave P _ _ _ _ Hb) in Hrun.
    injection Hrun as <-. cbn [returned] in Hr'.
    apply elem_of_keep_scraped in Hr' as [_ Hcontent].
    split; [| split; [exact Hcontent | rewrite Heq; reflexivity]].
    rewrite Heq. cbn [link].
    apply (elem_of_scrape_candidates sr
             (List.map candidate_of (default [] web_results))).
    eapply list_elem_of_lookup_2. exact Hsr.
Qed.

Lemma contains_false (needle : string) c (hay : string) :
  contains needle (String c hay) = false ->
  startswith needle (String c hay) = false /\ contains needle hay = false.
Proof. cbn [contains]. apply orb_false_elim. Qed.

Lemma contains_false_startswith (needle hay : string) :
  contains needle hay = false -> startswith needle hay = false.
Proof.
  destruct hay as [| c hay]; [| intros H; exact (proj1 (contains_false _ _ _ H))].
  cbn [contains]. rewrite orb_false_r. trivial.
Qed.

(** A text in which [old] does not occur is left as it is by
    [replace]. *)
Lemma str_replace_absent (old new s : string) :
  contains old s = false -> str_replace old new s = s.
Proof.
  destruct old as [| a old]; [destruct s; discriminate |].
  cbn [str_replace]. induction s as [| c s IH]; [reflexivity |].
  intros H. apply contains_false in H as [Hhere Hlater].
  cbn [replace_from]. rewrite Hhere, (IH Hlater). reflexivity.
Qed.

(** A text without [needle] has no [needle] with a character before
    it. *)
Lemma contains_longer a (needle hay : string) :
  contains needle hay = false -> contains (String a needle) hay = false.
Proof.
  induction hay as [| c hay IH]; [reflexivity |].
  intros H. apply contains_false in H as [_ Hlater].
  cbn [contains startswith]. rewrite (IH Hlater), orb_false_r.
  destruct (Ascii.eqb a c); [apply contains_false_startswith, Hlater | reflexivity].
Qed.

(** X11. A page in which the markdown link of its own candidate,
    [[title](link)], does not occur is not changed by the cleaning: its
    record holds the markdown as it was scraped, cut to 80000
    characters. *)
Theorem page_without_its_own_link_is_kept_as_scraped sr md err :
  contains ("[" +:+ cand_title sr +:+ "](" +:+ cand_link sr +:+ ")") md = false ->
  scrape_task (ScrapeDict true (Some md) err) sr =
  Some {| title := cand_title sr; link := cand_link sr;
          content := str_take 80000 md; summary := None |}.
Proof.
  intros H. cbn [scrape_task default from_option id]. unfold clean_markdown. cbv zeta.
  rewrite (str_replace_absent _ "" md).
  - rewrite (str_replace_absent _ (cand_title sr) md H). reflexivity.
  - exact (contains_longer "!" _ md H).
Qed.

End WebSearchRuns.

Lemma returned_records_keep_the_brave_order_witness :
  exists run,
    _search_on_web_implementation three_candidates "a query" None None = Ok run /\
    List.map link (returned run) = ["https://a.example"; "https://c.example"] /\
    List.map link (returned run) `sublist_of` scrape_calls run.
Proof.
  eexists. split; [vm_compute; reflexivity |]. split; [reflexivity |].
  refine (proj1 (proj2 (returned_records_keep_the_brave_order three_candidates "a query"
                          None None _ _))).
  vm_compute. reflexivity.
Defined.

Lemma page_without_its_own_link_is_kept_as_scraped_witness :
  scrape_task (ScrapeDict true (Some "Plain text of the page") None)
    {| cand_title := "A"; cand_link := "https://a.example" |} =
  Some {| title := "A"; link := "https://a.example";
          content := str_take 80000 "Plain text of the page"; summary := None |}.
Proof.
  apply (page_without_its_own_link_is_kept_as_scraped
           {| cand_title := "A"; cand_link := "https://a.example" |}).
  vm_compute. reflexivity.
Defined.

(* ===================================================================== *)
(** * Text *)
(* ===================================================================== *)

Section Text.

Lemma length_append (a b : string) :
  String.length (a +:+ b) = (String.length a + String.length b)%nat.
Proof.
  induction a as [| c a IH]; [reflexivity |].
  exact (f_equal S IH).
Qed.

Lemma append_inj_r (t a : string) : forall b, a +:+ t = b +:+ t -> a = b.
Proof.
  induction a as [| c a IH]; intros [| d b] H.
  - reflexivity.
  - apply (f_equal String.length) in H. rewrite !length_append in H. cbn in H. lia.
  - apply (f_equal String.length) in H. rewrite !length_append in H. cbn in H. lia.
  - change (String c (a +:+ t) = String d (b +:+ t)) in H.
    injection H as -> H. rewrite (IH b H). reflexivity.
Qed.

Lemma startswith_app (p s : string) :
  startswith p s = true <-> exists rest, s = p +:+ rest.
Proof.
  revert s. induction p as [| a p IH]; intros s; cbn [startswith].
  - split; [intros _; exists s; reflexivity | reflexivity].
  - destruct s as [| b s]; [split; [discriminate | intros [rest H]; discriminate] |].
    destruct (Ascii.eqb_spec a b) as [-> | Hne].
    + rewrite IH. split; intros [rest H]; exists rest.
      * rewrite H. reflexivity.
      * change (String b s = String b (p +:+ rest)) in H. injection H as H. exact H.
    + split; [discriminate |]. intros [rest H].
      change (String b s = String a (p +:+ rest)) in H. injection H as H _.
      congruence.
Qed.

Lemma startswith_contains (p s : string) : startswith p s = true -> contains p s = true.
Proof. intros H. destruct s; cbn [contains]; rewrite H; reflexivity. Qed.

Lemma contains_app (needle a b : string) :
  contains needle b = true -> contains needle (a +:+ b) = true.
Proof.
  intros H. induction a as [| c a IH]; [exact H |].
  change (contains needle (String c (a +:+ b)) = true).
  cbn [contains]. rewrite IH. apply orb_true_r.
Qed.

Lemma rstrip_rstrip (s : string) : rstrip (rstrip s) = rstrip s.
Proof.
  induction s as [| c s IH]; [reflexivity |]. cbn [rstrip].
  destruct (rstrip s) as [| c' r] eqn:Hr.
  - destruct (is_space c) eqn:Hc; [reflexivity |]. cbn [rstrip]. rewrite Hc. reflexivity.
  - change (rstrip (String c (String c' r)))
      with (match rstrip (String c' r) with
            | EmptyString => if is_space c then EmptyString else String c EmptyString
            | String c'' r' => String c (String c'' r')
            end).
    rewrite IH. reflexivity.
Qed.

(** Cutting the end of a text leaves its first character. *)
Lemma rstrip_first c (s : string) :
  is_space c = false -> exists r, rstrip (String c s) = String c r.
Proof.
  intros Hc. cbn [rstrip]. destruct (rstrip s) as [| c' r].
  - rewrite Hc. exists EmptyString. reflexivity.
  - exists (String c' r). reflexivity.
Qed.

Lemma lstrip_strip (s : string) : lstrip (strip s) = strip s.
Proof.
  unfold strip. induction s as [| c s IH]; [reflexivity |]. cbn [lstrip].
  destruct (is_space c) eqn:Hc; [exact IH |].
  destruct (rstrip_first c s Hc) as [r ->]. cbn [lstrip]. rewrite Hc. reflexivity.
Qed.

Lemma strip_strip (s : string) : strip (strip s) = strip s.
Proof.
  unfold strip at 1. rewrite lstrip_strip. unfold strip. apply rstrip_rstrip.
Qed.

(** The white-space characters, by code point. *)
Lemma is_space_spec (c : ascii) :
  is_space c = true <->
  (9 <= nat_of_ascii c <= 13)%nat \/ (28 <= nat_of_ascii c <= 32)%nat \/
  nat_of_ascii c = 133%nat \/ nat_of_ascii c = 160%nat.
Proof.
  unfold is_space. cbv zeta.
  rewrite !orb_true_iff, !andb_true_iff, !Nat.leb_le, !Nat.eqb_eq. tauto.
Qed.

Lemma blank_cons c (s : string) :
  blank (String c s) <-> is_space c = true /\ blank s.
Proof.
  unfold blank. cbn [chars]. split.
  - intros H. inversion H; subst. split; assumption.
  - intros [Hc Hs]. constructor; assumption.
Qed.

Lemma blank_lstrip (s : string) : blank s <-> lstrip s = "".
Proof.
  induction s as [| c s IH]; [split; [reflexivity | intros _; constructor] |].
  rewrite blank_cons. cbn [lstrip]. destruct (is_space c).
  - rewrite <- IH. tauto.
  - split; [intros [H _]; discriminate | discriminate].
Qed.

(** [lstrip] takes white space off the front, up to the first character
    that is none. *)
Lemma lstrip_decompose (s : string) :
  (exists before, s = before +:+ lstrip s /\ blank before) /\
  (forall c, first_char (lstrip s) = Some c -> is_space c = false).
Proof.
  induction s as [| c s [(before & Hs & Hb) Hfirst]].
  - split; [exists ""; split; [reflexivity | constructor] | discriminate].
  - cbn [lstrip]. destruct (is_space c) eqn:Hc.
    + split; [| exact Hfirst]. exists (String c before). split.
      * change (String c s = String c (before +:+ lstrip s)). rewrite <- Hs. reflexivity.
      * apply blank_cons. split; assumption.
    + split; [exists ""; split; [reflexivity | constructor] |].
      intros c' [= <-]. exact Hc.
Qed.

(** [rstrip] takes white space off the end, back to the last character
    that is none. *)
Lemma rstrip_decompose (s : string) :
  (exists after, s = rstrip s +:+ after /\ blank after) /\
  (forall c, last_char (rstrip s) = Some c -> is_space c = false).
Proof.
  induction s as [| c s [(after & Hs & Hb) Hlast]].
  - split; [exists ""; split; [reflexivity | constructor] | discriminate].
  - cbn [rstrip]. destruct (rstrip s) as [| c' r] eqn:Hr.
    + change ("" +:+ after) with after in Hs. subst after.
      destruct (is_space c) eqn:Hc.
      * split; [| discriminate]. exists (String c s). split; [reflexivity |].
        apply blank_cons. split; assumption.
      * split; [exists s; split; [reflexivity | exact Hb] |].
        intros c0 [= <-]. exact Hc.
    + split.
      * exists after. split; [| exact Hb].
        change (String c s = String c (String c' r +:+ after)). rewrite <- Hs. reflexivity.
      * intros c0 H. apply Hlast. exact H.
Qed.

(** [strip] gives the text without the white space around it. *)
Lemma strip_stripped (s : string) : stripped s (strip s).
Proof.
  unfold stripped, trimmed, strip.
  destruct (lstrip_decompose s) as [(before & Hs & Hbefore) Hfirst].
  destruct (rstrip_decompose (lstrip s)) as [(after & Hl & Hafter) Hlast].
  split; [| split; [| exact Hlast]].
  - exists before, after. split; [| split; assumption].
    rewrite <- Hl. exact Hs.
  - intros c Hc. destruct (lstrip s) as [| c0 l] eqn:Hls; [discriminate |].
    pose proof (Hfirst c0 eq_refl) as Hc0.
    destruct (rstrip_first c0 l Hc0) as [r Hr]. rewrite Hr in Hc.
    injection Hc as <-. exact Hc0.
Qed.

End Text.

(* ===================================================================== *)
(** * The event service *)
(* ===================================================================== *)

Section EventService.

(** X12. Two sessions have the same stream key only when they are the
    same session: the streams of different sessions never mix. *)
Theorem stream_keys_of_sessions_are_distinct (a b : string) :
  event_service._generate_key a = event_service._generate_key b <-> a = b.
Proof.
  split; [| intros ->; reflexivity].
  unfold event_service._generate_key. intros H.
  apply (append_inj_r ":stream").
  change ("research:" +:+ a +:+ ":stream")
    with (String "r" (String "e" (String "s" (String "e" (String "a" (String "r"
            (String "c" (String "h" (String ":" (a +:+ ":stream")))))))))) in H.
  change ("research:" +:+ b +:+ ":stream")
    with (String "r" (String "e" (String "s" (String "e" (String "a" (String "r"
            (String "c" (String "h" (String ":" (b +:+ ":stream")))))))))) in H.
  injection H as H. exact H.
Qed.

(** The event [add_event] emits does not depend on Redis. *)
Lemma emitted_add_event session_id redis now event_data current_iteration :
  event_service.emitted
    (event_service.add_event session_id redis now event_data current_iteration)
  = event_service.stamp now current_iteration event_data.
Proof.
  unfold event_service.add_event. cbv zeta.
  destruct (redis (event_service.XADD _ _)); [reflexivity |].
  destruct (redis (event_service.EXPIRE _ _)); reflexivity.
Qed.

(** X13. What [add_event] sends is what it emits: the first command is
    the [XADD] of the stamped event on the key of the session; the
    [EXPIRE] of 86400 seconds on the same key follows exactly when the
    [XADD] did not fail, and nothing else is sent. A failure of Redis
    does not change the event that is emitted. *)
Theorem add_event_sends_what_it_emits session_id redis now event_data current_iteration :
  let em := event_service.add_event session_id redis now event_data current_iteration in
  let key := event_service._generate_key session_id in
  event_service.emitted em =
  event_service.emitted
    (event_service.add_event session_id (fun _ => None) now event_data current_iteration) /\
  exists rest,
    event_service.sent em = event_service.XADD key (event_service.emitted em) :: rest /\
    (rest = [] \/ rest = [event_service.EXPIRE key 86400]) /\
    (rest = [] <->
     is_Some (redis (event_service.XADD key (event_service.emitted em)))).
Proof.
  cbv zeta. unfold event_service.add_event. cbv zeta.
  destruct (redis (event_service.XADD _ _)) as [e |] eqn:Hxadd.
  - split; [reflexivity |]. exists []. cbn [event_service.emitted event_service.sent].
    split; [reflexivity |]. split; [left; reflexivity |].
    rewrite Hxadd. split; [intros _; eexists; reflexivity | reflexivity].
  - split; [destruct (redis (event_service.EXPIRE _ _)); reflexivity |].
    exists [event_service.EXPIRE (event_service._generate_key session_id) 86400].
    destruct (redis (event_service.EXPIRE _ _)) as [e |];
      cbn [event_service.emitted event_service.sent];
      (split; [reflexivity |]); (split; [right; reflexivity |]);
      rewrite Hxadd; (split; [discriminate | intros [x Hx]; discriminate]).
Qed.

(** X14. [add_event] fills in only what the event lacks. The emitted
    event always has a timestamp; a timestamp other than zero and an
    iteration that the event already has are kept, as is the type of the
    event; without a current iteration the event is not touched. An event
    that was emitted keeps its timestamp and iteration when it is emitted
    again, whatever the clock then shows. *)
Theorem add_event_fills_only_what_is_missing session_id redis now current_iteration
    event_data :
  let stamped :=
    event_service.emitted
      (event_service.add_event session_id redis now event_data current_iteration) in
  is_Some (event_service.timestamp stamped) /\
  (forall t, event_service.timestamp event_data = Some t -> t <> 0 ->
             event_service.timestamp stamped = Some t) /\
  event_type (event_service.event stamped) =
  event_type (event_service.event event_data) /\
  (forall i, event_iteration (event_service.event event_data) = Some i ->
             event_service.event stamped = event_service.event event_data) /\
  (current_iteration = None ->
   event_service.event stamped = event_service.event event_data) /\
  (now <> 0 ->
   forall session_id' redis' later,
     event_service.emitted
       (event_service.add_event session_id' redis' later stamped current_iteration)
     = stamped).
Proof.
  cbv zeta. rewrite emitted_add_event.
  setoid_rewrite emitted_add_event.
  destruct event_data as [e ts]. unfold event_service.stamp.
  cbn [event_service.event event_service.timestamp].
  split; [| split; [| split; [| split; [| split]]]].
  - destruct ts as [t |]; [destruct (t =? 0) |]; eexists; reflexivity.
  - intros t [= ->] Ht. destruct (Z.eqb_spec t 0); [contradiction | reflexivity].
  - destruct current_iteration as [c |], e as [| | ? ? ? ? [|] | ? ? ? ? [|] | | | | ? ? [|]];
      reflexivity.
  - intros i Hi.
    destruct current_iteration as [c |], e as [| | ? ? ? ? [|] | ? ? ? ? [|] | | | | ? ? [|]];
      try reflexivity; discriminate.
  - intros ->. destruct e; reflexivity.
  - intros Hnow _ _ later. f_equal.
    + destruct current_iteration as [c |], e as [| | ? ? ? ? [|] | ? ? ? ? [|] | | | | ? ? [|]];
        reflexivity.
    + destruct ts as [t |]; [destruct (Z.eqb_spec t 0) as [-> | Ht] |].
      * destruct (Z.eqb_spec now 0); [contradiction | reflexivity].
      * destruct (Z.eqb_spec t 0); [contradiction | reflexivity].
      * destruct (Z.eqb_spec now 0); [contradiction | reflexivity].
Qed.

End EventService.

(* ===================================================================== *)
(** * The LiteLLM adapter *)
(* ===================================================================== *)

Section LiteLLMAdapter.

Context {Message Float : Type}.
Variable default_temperature : Float.

Lemma contains_slash_together (m : string) :
  startswith "together_ai/" m = true -> contains "/" m = true.
Proof.
  intros H. apply startswith_app in H as [rest ->].
  apply (contains_app "/" "together_ai" (String "/" rest)). reflexivity.
Qed.

Lemma litellm_model_name_prefixed (m : string) :
  startswith "together_ai/" m = true -> llm_agents.litellm_model_name m = m.
Proof.
  intros H. unfold llm_agents.litellm_model_name.
  rewrite (contains_slash_together m H), H. reflexivity.
Qed.

Lemma litellm_model_name_other (m : string) :
  startswith "together_ai/" m = false ->
  llm_agents.litellm_model_name m = "together_ai/" +:+ m.
Proof.
  intros H. unfold llm_agents.litellm_model_name. rewrite H, orb_true_r. reflexivity.
Qed.

Lemma litellm_model_name_startswith (m : string) :
  startswith "together_ai/" (llm_agents.litellm_model_name m) = true.
Proof.
  destruct (startswith "together_ai/" m) eqn:H.
  - rewrite (litellm_model_name_prefixed m H). exact H.
  - rewrite (litellm_model_name_other m H). apply startswith_app. eexists. reflexivity.
Qed.

(** X15. The model name handed to LiteLLM always starts with
    ["together_ai/"]: a model identifier that starts with it is passed as
    it is, and every other identifier, also one that names another
    provider before a slash, gets the prefix. Applying the rule twice
    changes nothing. *)
Theorem litellm_model_name_is_a_together_model (m : string) :
  startswith "together_ai/" (llm_agents.litellm_model_name m) = true /\
  (startswith "together_ai/" m = true -> llm_agents.litellm_model_name m = m) /\
  (startswith "together_ai/" m = false ->
   llm_agents.litellm_model_name m = "together_ai/" +:+ m) /\
  llm_agents.litellm_model_name (llm_agents.litellm_model_name m)
  = llm_agents.litellm_model_name m.
Proof.
  split; [apply litellm_model_name_startswith |].
  split; [apply litellm_model_name_prefixed |].
  split; [apply litellm_model_name_other |].
  apply litellm_model_name_prefixed, litellm_model_name_startswith.
Qed.

(** X16. [generate_content] calls the provider at most once, and only
    with a request that has messages and a key that is not the
    placeholder: the call carries the messages of the request, the
    prefixed model name, the key, and the token limit of the request or
    the configured one. Without messages, and for an adapter that has no
    key of its own or is given the configured key, as the adapters of the
    module are, the provider is not called. *)
Theorem generate_content_calls_the_provider_at_most_once model_identifier self_api_key
    (acompletion : llm_agents.Completion Message Float -> llm_agents.LiteLLMReply)
    (request : llm_agents.Request Message Float) :
  let g := llm_agents.generate_content default_temperature model_identifier self_api_key
             acompletion request in
  (length (llm_agents.calls g) <= 1)%nat /\
  Forall (fun c =>
            Some (llm_agents.completion_messages c) = llm_agents.messages request /\
            llm_agents.completion_messages c <> [] /\
            llm_agents.model c = llm_agents.litellm_model_name model_identifier /\
            llm_agents.completion_max_tokens c
            = default (maxTokens RESEARCH_CONFIG) (llm_agents.max_tokens request) /\
            exists k,
              llm_agents.api_key c = Some k /\
              self_api_key = Some k /\
              contains "YOUR_TOGETHER_API_KEY" k = false)
    (llm_agents.calls g) /\
  (default [] (llm_agents.messages request) = [] ->
   g = {| llm_agents.text := "Error: No messages provided in the request.";
          llm_agents.calls := [] |}) /\
  (self_api_key = None \/ self_api_key = Some llm_agents.TOGETHER_API_KEY ->
   llm_agents.calls g = []).
Proof.
  cbv zeta. unfold llm_agents.generate_content.
  destruct (llm_agents.messages request) as [[| m ms] |] eqn:Hm;
    try (split; [cbn; lia |]; split; [constructor |]; split; reflexivity).
  cbv zeta.
  destruct (contains "YOUR_TOGETHER_API_KEY" (or_str self_api_key llm_agents.TOGETHER_API_KEY))
    eqn:Hkey.
  - split; [cbn; lia |]. split; [constructor |]. split; [discriminate | reflexivity].
  - assert (Hown : exists k, self_api_key = Some k /\
                             or_str self_api_key llm_agents.TOGETHER_API_KEY = k).
    { destruct self_api_key as [k |]; [| discriminate].
      cbn [or_str] in *. destruct (truthy k); [| discriminate].
      exists k. split; reflexivity. }
    destruct Hown as (k & -> & Hk). rewrite Hk in *.
    rewrite (startswith_contains _ _ (litellm_model_name_startswith model_identifier)).
    match goal with
    | |- context [acompletion ?the_call] =>
        assert (Hcalls : forall g : llm_agents.Generation Message Float,
                   llm_agents.calls g = [the_call] ->
                   (length (llm_agents.calls g) <= 1)%nat /\
                   Forall (fun c =>
                     Some (llm_agents.completion_messages c) = Some (m :: ms) /\
                     llm_agents.completion_messages c <> [] /\
                     llm_agents.model c = llm_agents.litellm_model_name model_identifier /\
                     llm_agents.completion_max_tokens c
                     = default (maxTokens RESEARCH_CONFIG) (llm_agents.max_tokens request) /\
                     exists k0,
                       llm_agents.api_key c = Some k0 /\
                       Some k = Some k0 /\
                       contains "YOUR_TOGETHER_API_KEY" k0 = false)
                     (llm_agents.calls g) /\
                   (default [] (Some (m :: ms)) = [] ->
                    g = {| llm_agents.text := "Error: No messages provided in the request.";
                           llm_agents.calls := [] |}) /\
                   (Some k = None \/ Some k = Some llm_agents.TOGETHER_API_KEY ->
                    llm_agents.calls g = []))
    end.
    { intros g ->. split; [cbn; lia |].
      split; [| split; [discriminate |];
                intros [H | H]; [discriminate |];
                injection H as ->; vm_compute in Hkey; discriminate].
      constructor; [| constructor]. cbn.
      split; [reflexivity |]. split; [discriminate |]. split; [reflexivity |].
      split; [reflexivity |]. exists k. repeat split. exact Hkey. }
    destruct (acompletion _) as [e | [content |]]; [| destruct (truthy content) |];
      apply Hcalls; reflexivity.
Qed.

(** X17. When the provider answers with a text, [generate_content]
    returns it without the white space around it: the answer is the
    returned text between two runs of white space, the returned text
    neither starts nor ends with white space, and stripping it again
    changes nothing. White space is what [str.strip()] removes. An answer
    of white space alone gives the empty text, not an error. *)
Theorem answer_text_is_stripped model_identifier self_api_key
    (acompletion : llm_agents.Completion Message Float -> llm_agents.LiteLLMReply)
    (request : llm_agents.Request Message Float) content :
  default [] (llm_agents.messages request) <> [] ->
  contains "YOUR_TOGETHER_API_KEY" (or_str self_api_key llm_agents.TOGETHER_API_KEY) = false ->
  (forall c, acompletion c = llm_agents.LiteLLMResponse (Some content)) ->
  truthy content = true ->
  let g := llm_agents.generate_content default_temperature model_identifier self_api_key
             acompletion request in
  llm_agents.text g = strip content /\
  stripped content (llm_agents.text g) /\
  strip (llm_agents.text g) = llm_agents.text g /\
  (blank content -> llm_agents.text g = "").
Proof.
  intros Hm Hkey Hanswer Hcontent. cbv zeta. unfold llm_agents.generate_content.
  destruct (llm_agents.messages request) as [[| m ms] |]; try (contradiction Hm; reflexivity).
  cbv zeta. rewrite Hkey, Hanswer, Hcontent. cbn [llm_agents.text].
  split; [reflexivity |]. split; [apply strip_stripped |]. split; [apply strip_strip |].
  intros Hblank. apply blank_lstrip in Hblank. unfold strip. rewrite Hblank. reflexivity.
Qed.

End LiteLLMAdapter.

Lemma answer_text_is_stripped_witness :
  llm_agents.text
    (llm_agents.generate_content (Message:=string) 7 "Qwen/Qwen2.5-72B-Instruct-Turbo"
       (Some "a-key") (fun _ => llm_agents.LiteLLMResponse (Some "  An answer. "))
       {| llm_agents.messages := Some ["Hello"]; llm_agents.max_tokens := None;
          llm_agents.temperature := None |})
  = "An answer.".
Proof.
  refine (proj1 (answer_text_is_stripped 7 "Qwen/Qwen2.5-72B-Instruct-Turbo"
                   (Some "a-key") (fun _ => llm_agents.LiteLLMResponse (Some "  An answer. "))
                   {| llm_agents.messages := Some ["Hello"]; llm_agents.max_tokens := None;
                      llm_agents.temperature := None |}
                   "  An answer. " _ _ _ _)).
  - discriminate.
  - vm_compute. reflexivity.
  - reflexivity.
  - reflexivity.
Defined.

(* ===================================================================== *)
(** * The research initiator *)
(* ===================================================================== *)

Section Initiator.

Variable db_get_research_data_for_init : string -> option initiator_agent.ResearchData.
Variable db_limit_research_check : string -> bool -> bool.

(** The parts that [answered_parts] gives. *)
Lemma elem_of_answered_parts (questions answers : list string) (part : string) :
  part ∈ initiator_agent.answered_parts questions answers <->
  exists i question_text answer,
    questions !! i = Some question_text /\
    answers !! i = Some answer /\
    truthy answer = true /\
    part = initiator_agent.question_part i question_text answer.
Proof.
  unfold initiator_agent.answered_parts.
  destruct (truthy_list answers && truthy_list questions && Nat.ltb 0 (length answers))
    eqn:Hguard.
  - rewrite list_elem_of_omap. split.
    + intros (x & Hx & Hpart). apply elem_of_lookup_imap in Hx as (i & q & -> & Hq).
      cbn [id] in Hpart. destruct (answers !! i) as [a |] eqn:Ha; [| discriminate].
      destruct (truthy a) eqn:Hta; [| discriminate]. injection Hpart as <-.
      exists i, q, a. repeat split; assumption.
    + intros (i & q & a & Hq & Ha & Hta & ->).
      exists (Some (initiator_agent.question_part i q a)). split; [| reflexivity].
      apply elem_of_lookup_imap. exists i, q. split; [| exact Hq].
      rewrite Ha, Hta. reflexivity.
  - split; [intros H; inversion H |].
    intros (i & q & a & Hq & Ha & _ & _).
    destruct answers as [| a0 answers]; [rewrite lookup_nil in Ha; discriminate |].
    destruct questions as [| q0 questions]; [rewrite lookup_nil in Hq; discriminate |].
    discriminate.
Qed.

(** The parts, position by position. *)
Lemma omap_imap_seq {A B} (f : nat -> A -> option B) (l : list A) :
  omap id (imap f l)
  = omap (fun i => match l !! i with Some x => f i x | None => None end)
      (seq 0 (length l)).
Proof.
  apply list_omap_ext. apply Forall2_same_length_lookup_2.
  - rewrite length_imap, length_seq. reflexivity.
  - intros i y j Hy Hj. rewrite list_lookup_imap in Hy.
    apply lookup_seq in Hj as [-> _]. cbn [Nat.add id].
    destruct (l !! i) as [x |]; [| discriminate]. injection Hy as <-. reflexivity.
Qed.

Lemma omap_all_None {A B} (f : A -> option B) (l : list A) :
  (forall x, f x = None) -> omap f l = [].
Proof.
  intros Hf. induction l as [| x l IH]; [reflexivity |].
  rewrite omap_cons_eq, Hf. exact IH.
Qed.

(** X18. The parts of the topic are, for the positions of the questions
    in order, one part for each position that has a non-empty answer,
    and nothing else: a question without an answer, an empty answer and an
    answer beyond the last question add nothing, no part is repeated, and
    the parts come in the order of the questions. Each part holds the
    number of the question, counted from 1, the question and the
    answer. *)
Theorem topic_parts_are_the_answered_questions (questions answers : list string) :
  initiator_agent.answered_parts questions answers =
  omap (fun i =>
          match questions !! i, answers !! i with
          | Some question_text, Some answer =>
              if truthy answer
              then Some (pretty (S i) +:+ ". " +:+ question_text +:+ " " +:+ answer)
              else None
          | _, _ => None
          end) (seq 0 (length questions)) /\
  forall part,
    part ∈ initiator_agent.answered_parts questions answers <->
    exists i question_text answer,
      questions !! i = Some question_text /\
      answers !! i = Some answer /\
      truthy answer = true /\
      part = pretty (S i) +:+ ". " +:+ question_text +:+ " " +:+ answer.
Proof.
  split; [| intros part; apply elem_of_answered_parts].
  unfold initiator_agent.answered_parts.
  destruct (truthy_list answers && truthy_list questions && Nat.ltb 0 (length answers))
    eqn:Hguard.
  - rewrite omap_imap_seq. apply list_omap_ext. apply Forall2_same_length_lookup_2.
    + reflexivity.
    + intros i x y Hx Hy. rewrite Hx in Hy. injection Hy as <-.
      destruct (questions !! x) as [q |]; [| reflexivity].
      destruct (answers !! x) as [a |]; reflexivity.
  - symmetry. destruct questions as [| q0 questions]; [reflexivity |].
    destruct answers as [| a0 answers]; [| discriminate].
    apply omap_all_None. intros i. rewrite lookup_nil.
    destruct ((q0 :: questions) !! i); reflexivity.
Qed.

(** X19. The orchestrator is only created for a session that has an id,
    research data with a user, and a passed limit check; its topic is the
    constructed topic, which is not empty and neither starts nor ends
    with white space (what [str.strip()] removes). *)
Theorem orchestrator_gets_a_session_and_a_topic state_chat_id user_chat_id state_key user_key
    session_id research_topic :
  initiator_agent.ResearchInitiatorAgent_prepare db_get_research_data_for_init
    db_limit_research_check state_chat_id user_chat_id state_key user_key
  = initiator_agent.Orchestrate session_id research_topic ->
  session_id = or_str state_chat_id (default "" user_chat_id) /\
  truthy session_id = true /\
  truthy research_topic = true /\
  trimmed research_topic /\
  strip research_topic = research_topic /\
  exists research_data clerk_user_id,
    db_get_research_data_for_init session_id = Some research_data /\
    initiator_agent.clerkUserId research_data = Some clerk_user_id /\
    truthy clerk_user_id = true /\
    db_limit_research_check clerk_user_id
      (truthy (or_str state_key (default "" user_key))) = true /\
    research_topic = initiator_agent.construct_research_topic research_data.
Proof.
  unfold initiator_agent.ResearchInitiatorAgent_prepare. cbv zeta.
  destruct (truthy (or_str state_chat_id (default "" user_chat_id))) eqn:Hid;
    cbn [negb]; [| discriminate].
  destruct (db_get_research_data_for_init _) as [rd |] eqn:Hrd; [| discriminate].
  destruct (initiator_agent.clerkUserId rd) as [uid |] eqn:Huid; [| discriminate].
  destruct (truthy uid) eqn:Huser; cbn [negb]; [| discriminate].
  destruct (db_limit_research_check uid _) eqn:Hlimit; cbn [negb]; [| discriminate].
  destruct (truthy (initiator_agent.construct_research_topic rd)) eqn:Htopic;
    cbn [negb]; [| discriminate].
  intros [= <- <-]. split; [reflexivity |]. split; [exact Hid |]. split; [exact Htopic |].
  split; [exact (proj2 (strip_stripped _)) |].
  split; [apply strip_strip |].
  exists rd, uid. repeat split; assumption.
Qed.

(** X20. When no question has a non-empty answer, the topic is the
    initial message without the white space around it (what
    [str.strip()] removes); a message that is missing, empty or white
    space only then gives the empty topic, and the initiator does not
    hand over to the orchestrator. *)
Theorem topic_without_answers_is_the_message research_data :
  Forall (fun answer => truthy answer = false)
    (default [] (initiator_agent.answers research_data)) ->
  initiator_agent.construct_research_topic research_data
  = strip (default "" (initiator_agent.initialUserMessage research_data)) /\
  stripped (default "" (initiator_agent.initialUserMessage research_data))
    (initiator_agent.construct_research_topic research_data) /\
  (blank (default "" (initiator_agent.initialUserMessage research_data)) ->
   initiator_agent.construct_research_topic research_data = "" /\
   forall state_chat_id user_chat_id state_key user_key session_id research_topic,
     db_get_research_data_for_init (or_str state_chat_id (default "" user_chat_id))
     = Some research_data ->
     initiator_agent.ResearchInitiatorAgent_prepare db_get_research_data_for_init
       db_limit_research_check state_chat_id user_chat_id state_key user_key
     <> initiator_agent.Orchestrate session_id research_topic).
Proof.
  intros Hanswers.
  assert (Hparts : initiator_agent.answered_parts
                     (default [] (initiator_agent.questions research_data))
                     (default [] (initiator_agent.answers research_data)) = []).
  { destruct (initiator_agent.answered_parts _ _) as [| part parts] eqn:Hp; [reflexivity |].
    assert (Hin : part ∈ initiator_agent.answered_parts
                    (default [] (initiator_agent.questions research_data))
                    (default [] (initiator_agent.answers research_data)))
      by (rewrite Hp; left).
    apply elem_of_answered_parts in Hin as (i & q & a & _ & Ha & Hta & _).
    rewrite Forall_forall in Hanswers.
    rewrite (Hanswers a (list_elem_of_lookup_2 _ _ _ Ha)) in Hta. discriminate. }
  assert (Htopic : initiator_agent.construct_research_topic research_data
                   = strip (default "" (initiator_agent.initialUserMessage research_data))).
  { unfold initiator_agent.construct_research_topic. cbv zeta. rewrite Hparts.
    cbn [List.filter].
    destruct (default "" (initiator_agent.initialUserMessage research_data)) as [| c msg];
      reflexivity. }
  split; [exact Htopic |]. split; [rewrite Htopic; apply strip_stripped |].
  intros Hblank. apply blank_lstrip in Hblank.
  assert (Hempty : initiator_agent.construct_research_topic research_data = "")
    by (rewrite Htopic; unfold strip; rewrite Hblank; reflexivity).
  split; [exact Hempty |].
  intros state_chat_id user_chat_id state_key user_key session_id research_topic Hdb.
  unfold initiator_agent.ResearchInitiatorAgent_prepare. cbv zeta. rewrite Hdb, Hempty.
  cbn [truthy negb].
  destruct (truthy (or_str state_chat_id (default "" user_chat_id))); cbn [negb];
    [| discriminate].
  destruct (initiator_agent.clerkUserId research_data) as [uid |]; [| discriminate].
  destruct (truthy uid); cbn [negb]; [| discriminate].
  destruct (db_limit_research_check uid _); cbn [negb]; discriminate.
Qed.

End Initiator.

Lemma orchestrator_gets_a_session_and_a_topic_witness :
  truthy "chat-1" = true /\
  strip "Initial topic for chat-1 from Python stub 1. Is this a stub question? Yes, it is."
  = "Initial topic for chat-1 from Python stub 1. Is this a stub question? Yes, it is.".
Proof.
  pose proof (orchestrator_gets_a_session_and_a_topic
                initiator_agent.db_get_research_data_for_init
                initiator_agent.db_limit_research_check
                (Some "chat-1") None None None "chat-1"
                "Initial topic for chat-1 from Python stub 1. Is this a stub question? Yes, it is."
                eq_refl) as (_ & Hid & _ & _ & Hstrip & _).
  split; [exact Hid | exact Hstrip].
Defined.

Lemma topic_without_answers_is_the_message_witness :
  initiator_agent.construct_research_topic
    {| initiator_agent.clerkUserId := Some "user";
       initiator_agent.initialUserMessage := Some "  Tides  ";
       initiator_agent.questions := Some ["Which coast?"];
       initiator_agent.answers := Some [""] |}
  = "Tides".
Proof.
  refine (proj1 (topic_without_answers_is_the_message
                   initiator_agent.db_get_research_data_for_init
                   initiator_agent.db_limit_research_check
                   {| initiator_agent.clerkUserId := Some "user";
                      initiator_agent.initialUserMessage := Some "  Tides  ";
                      initiator_agent.questions := Some ["Which coast?"];
                      initiator_agent.answers := Some [""] |} _)).
  repeat constructor.
Defined.

(* ===================================================================== *)
(** * The title of the report *)
(* ===================================================================== *)

Section ReportTitle.

Lemma split_nonempty (s : string) : report.split report.newline s <> [].
Proof.
  destruct s as [| c s]; cbn [report.split]; [discriminate |].
  destruct (Ascii.eqb c report.newline); [discriminate |].
  destruct (report.split report.newline s); discriminate.
Qed.

Lemma join_cons (x : string) (xs : list string) :
  xs <> [] -> join nl (x :: xs) = x +:+ nl +:+ join nl xs.
Proof. destruct xs; [contradiction | reflexivity]. Qed.

(** A character of a text without line feed is no line feed. *)
Lemma newline_free_cons c (s : string) :
  contains nl (String c s) = false <->
  Ascii.eqb c report.newline = false /\ contains nl s = false.
Proof.
  cbn [contains]. unfold nl. cbn [startswith].
  change (Ascii.ascii_of_nat 10) with report.newline.
  rewrite (Ascii.eqb_sym report.newline c).
  destruct (Ascii.eqb c report.newline); cbn [orb].
  - destruct s; split; try discriminate; intros [H _]; discriminate.
  - split; [intros H; split; [reflexivity | exact H] | intros [_ H]; exact H].
Qed.

Lemma split_line (x rest : string) :
  contains nl x = false ->
  report.split report.newline (x +:+ nl +:+ rest)
  = x :: report.split report.newline rest.
Proof.
  induction x as [| c x IH]; intros Hx.
  - change (report.split report.newline (String report.newline rest)
            = "" :: report.split report.newline rest).
    cbn [report.split]. rewrite Ascii.eqb_refl. reflexivity.
  - apply newline_free_cons in Hx as [Hc Hx].
    change (report.split report.newline (String c (x +:+ nl +:+ rest))
            = String c x :: report.split report.newline rest).
    cbn [report.split]. rewrite Hc, (IH Hx). reflexivity.
Qed.

Lemma split_one_line (x : string) :
  contains nl x = false -> report.split report.newline x = [x].
Proof.
  induction x as [| c x IH]; intros Hx; [reflexivity |].
  apply newline_free_cons in Hx as [Hc Hx].
  cbn [report.split]. rewrite Hc, (IH Hx). reflexivity.
Qed.

Lemma split_join (lines : list string) :
  lines <> [] ->
  Forall (fun l => contains nl l = false) lines ->
  report.split report.newline (join nl lines) = lines.
Proof.
  induction lines as [| x [| y lines] IH]; intros Hne Hfree; [contradiction | |].
  - apply split_one_line. exact (Forall_inv Hfree).
  - rewrite join_cons by discriminate.
    rewrite (split_line x _ (Forall_inv Hfree)). f_equal.
    apply IH; [discriminate | exact (Forall_inv_tail Hfree)].
Qed.

Lemma join_split (s : string) : join nl (report.split report.newline s) = s.
Proof.
  induction s as [| c s IH]; [reflexivity |]. cbn [report.split].
  destruct (Ascii.eqb_spec c report.newline) as [-> | Hc].
  - rewrite join_cons by apply split_nonempty. rewrite IH. reflexivity.
  - pose proof (split_nonempty s) as Hne.
    destruct (report.split report.newline s) as [| piece [| piece' pieces]];
      [contradiction | |].
    + cbn in IH |- *. rewrite IH. reflexivity.
    + rewrite join_cons in IH |- * by discriminate.
      change (String c (piece +:+ nl +:+ join nl (piece' :: pieces)) = String c s).
      rewrite IH. reflexivity.
Qed.

Lemma split_newline_free (s : string) :
  Forall (fun l => contains nl l = false) (report.split report.newline s).
Proof.
  induction s as [| c s IH]; [repeat constructor |]. cbn [report.split].
  destruct (Ascii.eqb c report.newline) eqn:Hc; [constructor; [reflexivity | exact IH] |].
  destruct (report.split report.newline s) as [| piece pieces]; [repeat constructor |].
  - apply newline_free_cons. split; [exact Hc | reflexivity].
  - constructor; [| exact (Forall_inv_tail IH)].
    apply newline_free_cons. split; [exact Hc | exact (Forall_inv IH)].
Qed.

(** X21. The lines of a text: joining the pieces [split] gives with line
    feeds gives the text back, no piece has a line feed, and splitting
    the join of lines that have no line feed gives these lines. *)
Theorem split_and_join_are_inverse (s : string) (lines : list string) :
  join nl (report.split report.newline s) = s /\
  Forall (fun l => contains nl l = false) (report.split report.newline s) /\
  (lines <> [] ->
   Forall (fun l => contains nl l = false) lines ->
   report.split report.newline (join nl lines) = lines).
Proof.
  split; [apply join_split |]. split; [apply split_newline_free | apply split_join].
Qed.

Lemma find_first {A} (f : A -> bool) (before : list A) x (after : list A) :
  Forall (fun y => f y = false) before -> f x = true ->
  List.find f (before ++ x :: after)%list = Some x.
Proof.
  intros Hb Hx. induction Hb as [| y before Hy _ IH]; cbn [app List.find].
  - rewrite Hx. reflexivity.
  - rewrite Hy. exact IH.
Qed.

Lemma find_none {A} (f : A -> bool) (l : list A) :
  Forall (fun y => f y = false) l -> List.find f l = None.
Proof.
  intros Hl. induction Hl as [| y l Hy _ IH]; [reflexivity |].
  cbn [List.find]. rewrite Hy. exact IH.
Qed.

(** X22. The title of a report is the text after ["# "] of its first
    line that starts with ["# "], without the white space around it (what
    [str.strip()] removes); the later lines do not matter. A report
    without such a line gets the topic as its title. *)
Theorem report_title_is_the_first_heading (topic : string)
    (before : list string) (heading : string) (after lines : list string) :
  (Forall (fun l => contains nl l = false /\ startswith "# " l = false) before ->
   contains nl heading = false ->
   Forall (fun l => contains nl l = false) after ->
   report.report_title topic (join nl (before ++ ("# " +:+ heading) :: after))
   = strip heading /\
   stripped heading
     (report.report_title topic (join nl (before ++ ("# " +:+ heading) :: after)))) /\
  (Forall (fun l => contains nl l = false /\ startswith "# " l = false) lines ->
   report.report_title topic (join nl lines) = topic).
Proof.
  split.
  - intros Hbefore Hheading Hafter. unfold report.report_title.
    rewrite split_join.
    + rewrite (find_first _ before ("# " +:+ heading) after).
      * split; [reflexivity | apply strip_stripped].
      * eapply Forall_impl; [exact Hbefore |]. intros l [_ H]. exact H.
      * reflexivity.
    + destruct before; discriminate.
    + apply Forall_app. split.
      * eapply Forall_impl; [exact Hbefore |]. intros l [H _]. exact H.
      * constructor; [| exact Hafter].
        change (contains nl (String "#" (String " " heading)) = false).
        apply newline_free_cons. split; [reflexivity |].
        apply newline_free_cons. split; [reflexivity | exact Hheading].
  - intros Hlines. unfold report.report_title.
    destruct lines as [| l lines]; [reflexivity |].
    rewrite split_join.
    + rewrite find_none; [reflexivity |].
      eapply Forall_impl; [exact Hlines |]. intros x [_ H]. exact H.
    + discriminate.
    + eapply Forall_impl; [exact Hlines |]. intros x [H _]. exact H.
Qed.

End ReportTitle.

Lemma report_title_is_the_first_heading_witness :
  report.report_title "tides"
    (join nl (["Summary"] ++ ("# " +:+ " Tides of the North Sea ") :: ["# Later"]))
  = "Tides of the North Sea".
Proof.
  refine (proj1 (proj1 (report_title_is_the_first_heading "tides" ["Summary"]
                          " Tides of the North Sea " ["# Later"] []) _ _ _)).
  - repeat constructor.
  - reflexivity.
  - repeat constructor.
Defined.
